(** * Camera Access App: camera gateway, WebAuthn gateway and the
      gesture-triggered orchestrator of [src/main.ts], embedded shallowly. *)

From Stdlib Require Import String Ascii List ZArith Bool Lia.
Import ListNotations.

#[local] Set Warnings "-register-all".

Local Notation "a +s+ b" := (String.append a b) (at level 60, right associativity).

(** ** JavaScript values thrown and caught by the gateways *)
Module Js.

(** A thrown JS object, seen through the four properties the code reads:
    [type] (our own error records), [name] and [message] (platform
    [DOMException]s), and [originalError]. [None] is [undefined]. *)
Inductive jsval : Type :=
| JsObj (ty : option string) (name : option string) (message : option string)
        (orig : option jsval).

Definition js_type (v : jsval) : option string :=
  match v with JsObj t _ _ _ => t end.
Definition js_name (v : jsval) : option string :=
  match v with JsObj _ n _ _ => n end.
Definition js_message (v : jsval) : option string :=
  match v with JsObj _ _ m _ => m end.

(** JS truthiness of a string-or-undefined property. *)
Definition truthy (o : option string) : bool :=
  match o with Some s => negb (String.eqb s "") | None => false end.

(** [error.message || 'Unknown error'] *)
Definition message_or_unknown (o : option string) : string :=
  match o with
  | Some s => if String.eqb s "" then "Unknown error" else s
  | None => "Unknown error"
  end.

(** [switch (error.name) { case n: ... }] uses strict equality. *)
Definition name_is (v : jsval) (n : string) : bool :=
  match js_name v with Some m => String.eqb m n | None => false end.

(** An error record [{type, message, originalError?}] built by the code. *)
Definition mk_error (ty msg : string) (orig : option jsval) : jsval :=
  JsObj (Some ty) None (Some msg) orig.

(** A platform failure ([DOMException]) with its identity and message. *)
Definition platform_error (name msg : string) : jsval :=
  JsObj None (Some name) (Some msg) None.

End Js.
Import Js.

(** ** Camera gateway ([src/unnamed/part_000], i.e. [camera.ts]) *)
Module Camera.

(** Module state: [currentStream], plus the streams whose tracks are live
    (platform side) and the identity the next acquired stream gets. *)
Record Gw : Type := mkGw {
  currentStream : option nat;
  live : list nat;
  next_id : nat
}.

Definition gw_init : Gw := mkGw None [] 0.

(** Outcome of [navigator.mediaDevices.getUserMedia]. *)
Inductive gum_outcome : Type :=
| GumOk
| GumErr (e : jsval).

Definition not_supported_msg : string :=
  "Camera access is not supported in this browser. Please use a modern browser like Chrome, Firefox, Safari, or Edge.".

(** The error thrown at line 22, inside the [try]. *)
Definition not_supported_error : jsval :=
  mk_error "not-supported" not_supported_msg None.

(** The [catch] block of [requestCameraAccess] (lines 37-78): no check of an
    existing [type]; a switch on [error.name]. *)
Definition camera_catch (error : jsval) : jsval :=
  if name_is error "NotAllowedError" || name_is error "PermissionDeniedError" then
    mk_error "permission-denied"
      "Camera access was denied. Please allow camera access to continue."
      (Some error)
  else if name_is error "NotFoundError" || name_is error "DevicesNotFoundError" then
    mk_error "not-found"
      "No camera device found. Please connect a camera and try again."
      (Some error)
  else if name_is error "NotReadableError" || name_is error "TrackStartError" then
    mk_error "in-use"
      "Camera is currently in use by another application. Please close other apps using the camera and try again."
      (Some error)
  else
    mk_error "unknown"
      ("Unable to access camera: " +s+ message_or_unknown (js_message error))
      (Some error).

(** [requestCameraAccess] (lines 14-79). [media_present] is
    [navigator.mediaDevices && navigator.mediaDevices.getUserMedia]; on
    success the platform hands out a fresh stream whose tracks are live, and
    the code records it in [currentStream] (line 34). The part after the
    [await] of [getUserMedia] is [camera_settle]. *)
Definition camera_settle (out : gum_outcome) (g : Gw) : (nat + jsval) * Gw :=
  match out with
  | GumOk =>
      let stream := next_id g in
      (inl stream, mkGw (Some stream) (stream :: live g) (S stream))
  | GumErr e => (inr (camera_catch e), g)
  end.

Definition requestCameraAccess (media_present : bool) (out : gum_outcome) (g : Gw)
  : (nat + jsval) * Gw :=
  if negb media_present then (inr (camera_catch not_supported_error), g)
  else camera_settle out g.

(** [stopCamera] (lines 81-88): stops every track of [currentStream], if
    any, and forgets it. *)
Definition stopCamera (g : Gw) : Gw :=
  match currentStream g with
  | Some s => mkGw None (filter (fun x => negb (Nat.eqb x s)) (live g)) (next_id g)
  | None => g
  end.

End Camera.

(** ** Events of an execution, as the platform observes them *)
Module Ev.

(** A platform credential call: [navigator.credentials.create] or
    [navigator.credentials.get] with its [allowCredentials] identifiers. *)
Inductive cred_call : Type :=
| CallCreate
| CallGet (allow : list (list Z)).

(** Suspension points: waiting on a credential call, on [getUserMedia], or
    on an already settled promise (a microtask, no other event runs). *)
Inductive susp : Type := SCred | SCam | SMicro.

Inductive event : Type :=
| EvSupportProbe
| EvStoreLookup
| EvPlatform (c : cred_call)
| EvCredSettled
| EvCamRequest
| EvCamSettled
| EvSuspend (s : susp)
| EvTimerSet
| EvTimerFired.

Definition is_platform (e : event) : bool :=
  match e with EvPlatform _ => true | _ => false end.

(** Number of credential-API calls in a trace. *)
Definition count_calls (tr : list event) : nat := length (filter is_platform tr).

(** The events before the first suspension, and that suspension. *)
Fixpoint first_susp (tr : list event) : option (list event * susp) :=
  match tr with
  | [] => None
  | EvSuspend x :: _ => Some ([], x)
  | e :: r =>
      match first_susp r with
      | Some (pre, x) => Some (e :: pre, x)
      | None => None
      end
  end.

End Ev.
Import Ev.

(** ** [btoa] and [atob] (forgiving base64 of the HTML standard) *)
Module Base64.
Local Open Scope Z_scope.

Definition alphabet : list ascii :=
  list_ascii_of_string "ABCDEFGHIJKLMNOPQRSTUVWXYZabcdefghijklmnopqrstuvwxyz0123456789+/".

Definition sx (v : Z) : ascii := nth (Z.to_nat v) alphabet "A"%char.

Fixpoint index_of (c : ascii) (l : list ascii) (i : Z) : option Z :=
  match l with
  | [] => None
  | x :: r => if Ascii.eqb x c then Some i else index_of c r (i + 1)
  end.

Definition char_value (c : ascii) : option Z := index_of c alphabet 0.

Definition pad_char : ascii := "="%char.

(** 24-bit groups: three octets to four sextets; a final group of one or
    two octets gives two or three sextets (low bits zero). *)
Fixpoint sextets (l : list Z) : list Z :=
  match l with
  | a :: b :: c :: r =>
      a / 4 :: (a mod 4) * 16 + b / 16 :: (b mod 16) * 4 + c / 64 :: c mod 64
        :: sextets r
  | [a; b] => [a / 4; (a mod 4) * 16 + b / 16; (b mod 16) * 4]
  | [a] => [a / 4; (a mod 4) * 16]
  | [] => []
  end.

Definition pad_len (n : nat) : nat :=
  match (n mod 3)%nat with 0%nat => 0 | 1%nat => 2 | _ => 1 end.

Definition encode (codes : list Z) : list ascii :=
  map sx (sextets codes) ++ repeat pad_char (pad_len (length codes)).

(** [btoa] throws [InvalidCharacterError] on a code unit above 255. *)
Definition btoa (codes : list Z) : option string :=
  if forallb (fun c => (0 <=? c) && (c <? 256)) codes
  then Some (string_of_list_ascii (encode codes))
  else None.

Definition is_ascii_ws (c : ascii) : bool :=
  let n := nat_of_ascii c in
  (Nat.eqb n 9 || Nat.eqb n 10 || Nat.eqb n 12 || Nat.eqb n 13 || Nat.eqb n 32)%bool.

(** If the length is a multiple of four, drop one or two trailing [=]. *)
Definition strip_pad (l : list ascii) : list ascii :=
  if Nat.eqb (length l mod 4) 0 then
    match rev l with
    | x :: y :: r =>
        if Ascii.eqb x pad_char then
          if Ascii.eqb y pad_char then rev r else rev (y :: r)
        else l
    | [x] => if Ascii.eqb x pad_char then [] else l
    | [] => l
    end
  else l.

Fixpoint values (l : list ascii) : option (list Z) :=
  match l with
  | [] => Some []
  | c :: r =>
      match char_value c, values r with
      | Some v, Some vs => Some (v :: vs)
      | _, _ => None
      end
  end.

Fixpoint decode_sextets (l : list Z) : option (list Z) :=
  match l with
  | a :: b :: c :: d :: r =>
      match decode_sextets r with
      | Some out =>
          Some (a * 4 + b / 16 :: (b mod 16) * 16 + c / 4 :: (c mod 4) * 64 + d :: out)
      | None => None
      end
  | [a; b; c] => Some [a * 4 + b / 16; (b mod 16) * 16 + c / 4]
  | [a; b] => Some [a * 4 + b / 16]
  | [_] => None
  | [] => Some []
  end.

(** [atob]: [None] is the [InvalidCharacterError] it throws. The result
    is the binary string, as its list of code units. *)
Definition atob (s : string) : option (list Z) :=
  let l := strip_pad (filter (fun c => negb (is_ascii_ws c)) (list_ascii_of_string s)) in
  if Nat.eqb (length l mod 4) 1 then None
  else match values l with
       | Some vs => decode_sextets vs
       | None => None
       end.

End Base64.



(** ** WebAuthn gateway ([src/src/webauthn.ts]) *)
Module WebAuthn.

(** [localStorage] under [CREDENTIAL_STORAGE_KEY]: absent or a string. *)
Definition storage := option string.

Definition byte_code (b : Byte.byte) : Z := Z.of_N (Byte.to_N b).

(** [base64ToUint8Array]: [atob], then each [charCodeAt] stored into a
    [Uint8Array] (ToUint8, i.e. modulo 256). *)
Definition base64ToUint8Array (b64 : string) : option (list Z) :=
  match Base64.atob b64 with
  | Some bin => Some (map (fun c => Z.modulo c 256) bin)
  | None => None
  end.

(** [uint8ArrayToBase64]: [String.fromCharCode] of each byte, then [btoa]. *)
Definition uint8ArrayToBase64 (bytes : list Z) : option string :=
  Base64.btoa bytes.

(** [getStoredCredentialId] (lines 66-76): [null] for a missing or empty
    item, and for an item [atob] rejects (the [catch]). *)
Definition getStoredCredentialId (st : storage) : option (list Z) :=
  match st with
  | None => None
  | Some s =>
      if String.eqb s "" then None
      else base64ToUint8Array s
  end.

(** [storeCredentialId] (lines 79-83): the new item, [None] when [btoa]
    throws. *)
Definition storeCredentialId (rawId : list Byte.byte) : option string :=
  uint8ArrayToBase64 (map byte_code rawId).

Record AuthenticationResult : Type := mkResult {
  success : bool;
  credential : option (list Byte.byte);
  isNewRegistration : bool
}.

(** Outcome of [navigator.credentials.create] / [get]: a credential
    (given by its [rawId]) or [null], or a rejection. *)
Inductive cred_outcome : Type :=
| CredResolve (cred : option (list Byte.byte))
| CredReject (e : jsval).

(** The synchronous part of an operation up to its [await]: either the
    platform call is issued, or the [try] block threw first. *)
Inductive start_res : Type :=
| Issued (c : cred_call)
| Threw (e : jsval).

Definition not_supported_error : jsval :=
  mk_error "not-supported"
    "WebAuthn is not supported in this browser. Please use a modern browser like Chrome, Firefox, Safari, or Edge."
    None.

Definition register_null_error : jsval :=
  mk_error "unknown" "Failed to create credential. Please try again." None.

Definition btoa_error : jsval :=
  platform_error "InvalidCharacterError"
    "The string to be encoded contains characters outside of the Latin1 range.".

(** The [catch] block of [registerCredential] (lines 152-209). *)
Definition register_catch (err : jsval) : jsval :=
  if truthy (js_type err) then err
  else if name_is err "NotAllowedError" then
    mk_error "not-allowed"
      "Biometric authentication was cancelled or denied. Please ensure you have Face ID, Touch ID, or Windows Hello set up on your device."
      (Some err)
  else if name_is err "NotSupportedError" then
    mk_error "not-supported"
      "This device does not support biometric authentication. Please ensure Face ID, Touch ID, or Windows Hello is enabled."
      (Some err)
  else if name_is err "InvalidStateError" then
    mk_error "invalid-state" "A credential is already registered for this device." (Some err)
  else if name_is err "TimeoutError" || name_is err "AbortError" then
    mk_error "timeout"
      "Authentication timed out. Please try again and complete the biometric verification within 60 seconds."
      (Some err)
  else
    mk_error "unknown"
      ("Unable to register biometric authentication: " +s+ message_or_unknown (js_message err))
      (Some err).

(** [registerCredential] before its [await] (lines 92-134). *)
Definition register_start (supported : bool) : list event * start_res :=
  if negb supported then ([EvSupportProbe], Threw (register_catch not_supported_error))
  else ([EvSupportProbe; EvPlatform CallCreate], Issued CallCreate).

(** [registerCredential] after its [await] (lines 136-151 and the catch). *)
Definition register_finish (out : cred_outcome) (st : storage)
  : (AuthenticationResult + jsval) * storage :=
  match out with
  | CredReject e => (inr (register_catch e), st)
  | CredResolve None => (inr (register_catch register_null_error), st)
  | CredResolve (Some rawId) =>
      match storeCredentialId rawId with
      | Some b64 => (inl (mkResult true (Some rawId) true), Some b64)
      | None => (inr (register_catch btoa_error), st)
      end
  end.

Definition registerCredential (supported : bool) (out : cred_outcome) (st : storage)
  : list event * (AuthenticationResult + jsval) * storage :=
  match register_start supported with
  | (evs, Threw e) => (evs, inr e, st)
  | (evs, Issued _) =>
      let (r, st') := register_finish out st in
      (evs ++ [EvSuspend SCred; EvCredSettled], r, st')
  end.

Definition no_credential_error : jsval :=
  mk_error "invalid-state" "No credential found. Please register first." None.

Definition authenticate_null_error : jsval :=
  mk_error "unknown" "Failed to authenticate. Please try again." None.

(** The [catch] block of [authenticateUser] (lines 265-319). *)
Definition authenticate_catch (err : jsval) : jsval :=
  if truthy (js_type err) then err
  else if name_is err "NotAllowedError" then
    mk_error "not-allowed" "Biometric authentication was cancelled or denied." (Some err)
  else if name_is err "NotSupportedError" then
    mk_error "not-supported" "This device does not support biometric authentication." (Some err)
  else if name_is err "InvalidStateError" then
    mk_error "invalid-state" "Invalid credential state. Please try registering again." (Some err)
  else if name_is err "TimeoutError" || name_is err "AbortError" then
    mk_error "timeout" "Authentication timed out. Please try again." (Some err)
  else
    mk_error "unknown"
      ("Unable to authenticate: " +s+ message_or_unknown (js_message err))
      (Some err).

(** [authenticateUser] before its [await] (lines 214-250). *)
Definition authenticate_start (supported : bool) (st : storage) : list event * start_res :=
  if negb supported then ([EvSupportProbe], Threw (authenticate_catch not_supported_error))
  else
    match getStoredCredentialId st with
    | None => ([EvSupportProbe; EvStoreLookup], Threw (authenticate_catch no_credential_error))
    | Some id =>
        ([EvSupportProbe; EvStoreLookup; EvPlatform (CallGet [id])], Issued (CallGet [id]))
    end.

(** [authenticateUser] after its [await] (lines 252-264 and the catch). *)
Definition authenticate_finish (out : cred_outcome) : AuthenticationResult + jsval :=
  match out with
  | CredReject e => inr (authenticate_catch e)
  | CredResolve None => inr (authenticate_catch authenticate_null_error)
  | CredResolve (Some c) => inl (mkResult true (Some c) false)
  end.

Definition authenticateUser (supported : bool) (st : storage) (out : cred_outcome)
  : list event * (AuthenticationResult + jsval) :=
  match authenticate_start supported st with
  | (evs, Threw e) => (evs, inr e)
  | (evs, Issued _) => (evs ++ [EvSuspend SCred; EvCredSettled], authenticate_finish out)
  end.

End WebAuthn.

(** ** Orchestrator ([src/src/main.ts], second half, lines 106-395) *)
Module Main.
Import Camera WebAuthn.

(** What the browser offers: [checkWebAuthnSupport()] and
    [navigator.mediaDevices.getUserMedia]. *)
Record Env : Type := mkEnv {
  webauthn_present : bool;
  media_present : bool
}.

(** Where the one biometric flow, if any, is suspended. *)
Inductive bio_phase : Type :=
| BIdle
| BWaitCred (auth : bool)   (* at [await authenticateUser()] / [registerCredential()] *)
| BWaitCam.                 (* at the secondary [await requestCameraAccess()] *)

Record St : Type := mkSt {
  isCameraActive : bool;
  isAuthenticating : bool;
  isAuthenticated : bool;
  srcObject : option nat;          (* [video.srcObject] *)
  toggleWaiting : bool;            (* [startCamera] in flight, button disabled *)
  lastError : option jsval;        (* the error last given to [showError] *)
  gw : Gw;                         (* the camera module state *)
  store : storage;                 (* [localStorage] *)
  phase : bio_phase;
  timers : nat;                    (* pending 3 s auto-stop timeouts *)
  trace : list event
}.

Definition init (st0 : storage) : St :=
  mkSt false false false None false None gw_init st0 BIdle 0 [].

Definition set_busy (b : bool) (s : St) : St :=
  mkSt (isCameraActive s) b (isAuthenticated s) (srcObject s) (toggleWaiting s)
       (lastError s) (gw s) (store s) (phase s) (timers s) (trace s).
Definition set_authed (b : bool) (s : St) : St :=
  mkSt (isCameraActive s) (isAuthenticating s) b (srcObject s) (toggleWaiting s)
       (lastError s) (gw s) (store s) (phase s) (timers s) (trace s).
Definition set_camera_active (b : bool) (s : St) : St :=
  mkSt b (isAuthenticating s) (isAuthenticated s) (srcObject s) (toggleWaiting s)
       (lastError s) (gw s) (store s) (phase s) (timers s) (trace s).
Definition set_src (o : option nat) (s : St) : St :=
  mkSt (isCameraActive s) (isAuthenticating s) (isAuthenticated s) o (toggleWaiting s)
       (lastError s) (gw s) (store s) (phase s) (timers s) (trace s).
Definition set_toggle_waiting (b : bool) (s : St) : St :=
  mkSt (isCameraActive s) (isAuthenticating s) (isAuthenticated s) (srcObject s) b
       (lastError s) (gw s) (store s) (phase s) (timers s) (trace s).
Definition show_error (e : jsval) (s : St) : St :=
  mkSt (isCameraActive s) (isAuthenticating s) (isAuthenticated s) (srcObject s)
       (toggleWaiting s) (Some e) (gw s) (store s) (phase s) (timers s) (trace s).
Definition set_gw (g : Gw) (s : St) : St :=
  mkSt (isCameraActive s) (isAuthenticating s) (isAuthenticated s) (srcObject s)
       (toggleWaiting s) (lastError s) g (store s) (phase s) (timers s) (trace s).
Definition set_store (st : storage) (s : St) : St :=
  mkSt (isCameraActive s) (isAuthenticating s) (isAuthenticated s) (srcObject s)
       (toggleWaiting s) (lastError s) (gw s) st (phase s) (timers s) (trace s).
Definition set_phase (p : bio_phase) (s : St) : St :=
  mkSt (isCameraActive s) (isAuthenticating s) (isAuthenticated s) (srcObject s)
       (toggleWaiting s) (lastError s) (gw s) (store s) p (timers s) (trace s).
Definition set_timers (n : nat) (s : St) : St :=
  mkSt (isCameraActive s) (isAuthenticating s) (isAuthenticated s) (srcObject s)
       (toggleWaiting s) (lastError s) (gw s) (store s) (phase s) n (trace s).
Definition log (evs : list event) (s : St) : St :=
  mkSt (isCameraActive s) (isAuthenticating s) (isAuthenticated s) (srcObject s)
       (toggleWaiting s) (lastError s) (gw s) (store s) (phase s) (timers s)
       (trace s ++ evs).

Definition main_not_supported_error : jsval :=
  mk_error "not-supported"
    "Your browser does not support biometric authentication. Please use a modern browser like Chrome, Safari, Firefox, or Edge."
    None.

(** The [finally] block (lines 384-389): the flow is over. *)
Definition finish_flow (s : St) : St := set_phase BIdle (set_busy false s).

(** The [catch] block (lines 371-383), then [finally]. *)
Definition fail_flow (e : jsval) (s : St) : St :=
  let s := set_authed false (show_error e s) in
  let s := match srcObject s with
           | Some _ => set_src None (set_gw (stopCamera (gw s)) s)
           | None => s
           end in
  finish_flow s.

(** The click on the biometric button: [handleWebAuthnAuthentication] up
    to its first suspension (lines 281-309 and 341-344). *)
Definition click_webauthn (E : Env) (s : St) : St :=
  if isAuthenticating s then s else
  let s := set_busy true s in
  if negb (webauthn_present E) then fail_flow main_not_supported_error (log [EvSupportProbe] s)
  else
    let s := log [EvSupportProbe; EvStoreLookup] s in
    match getStoredCredentialId (store s) with
    | Some _ =>
        match authenticate_start (webauthn_present E) (store s) with
        | (evs, Issued _) => set_phase (BWaitCred true) (log (evs ++ [EvSuspend SCred]) s)
        | (evs, Threw e) => fail_flow e (log (evs ++ [EvSuspend SMicro]) s)
        end
    | None =>
        match register_start (webauthn_present E) with
        | (evs, Issued _) => set_phase (BWaitCred false) (log (evs ++ [EvSuspend SCred]) s)
        | (evs, Threw e) => fail_flow e (log (evs ++ [EvSuspend SMicro]) s)
        end
    end.

(** The credential call settles: the rest of [authenticateUser] or
    [registerCredential], then lines 312-335 or 347-369 up to the secondary
    camera request. Without [getUserMedia], [requestCameraAccess] rejects and
    the inner [catch] only logs a warning. *)
Definition resolve_cred (E : Env) (out : cred_outcome) (s : St) : St :=
  match phase s with
  | BWaitCred auth =>
      let s := log [EvCredSettled] s in
      let (r, st') := if auth then (authenticate_finish out, store s)
                      else register_finish out (store s) in
      let s := set_store st' s in
      match r with
      | inr e => fail_flow e s
      | inl res =>
          if success res then
            let s := if auth then set_authed true s else s in
            if media_present E
            then set_phase BWaitCam (log [EvCamRequest; EvSuspend SCam] s)
            else finish_flow (log [EvSuspend SMicro] s)
          else finish_flow s
      end
  | _ => s
  end.

(** The secondary [getUserMedia] settles (lines 323-334). *)
Definition resolve_cam (out : gum_outcome) (s : St) : St :=
  match phase s with
  | BWaitCam =>
      let s := log [EvCamSettled] s in
      match camera_settle out (gw s) with
      | (inl stream, g) =>
          finish_flow (log [EvTimerSet]
            (set_timers (S (timers s)) (set_src (Some stream) (set_gw g s))))
      | (inr _, _) => finish_flow s
      end
  | _ => s
  end.

(** A 3 s auto-stop timeout fires (lines 327-331). *)
Definition fire_timer (s : St) : St :=
  match timers s with
  | O => s
  | S n => log [EvTimerFired] (set_src None (set_gw (stopCamera (gw s)) (set_timers n s)))
  end.

(** [handleStopCamera] (lines 253-262). *)
Definition handleStopCamera (s : St) : St :=
  set_camera_active false (set_src None (set_gw (stopCamera (gw s)) s)).

(** The click on the camera button (lines 265-271), with [startCamera] up to
    its [await] (lines 227-233); a disabled button does not fire. *)
Definition click_toggle (E : Env) (s : St) : St :=
  if toggleWaiting s then s
  else if isCameraActive s then handleStopCamera s
  else if media_present E
  then log [EvCamRequest; EvSuspend SCam] (set_toggle_waiting true s)
  else set_camera_active false
         (show_error (camera_catch Camera.not_supported_error) (log [EvSuspend SMicro] s)).

(** [startCamera] after its [await] (lines 234-249). *)
Definition resolve_toggle (out : gum_outcome) (s : St) : St :=
  if negb (toggleWaiting s) then s else
  let s := set_toggle_waiting false (log [EvCamSettled] s) in
  match camera_settle out (gw s) with
  | (inl stream, g) => set_camera_active true (set_src (Some stream) (set_gw g s))
  | (inr e, _) => set_camera_active false (show_error e s)
  end.

(** One event of the single-threaded event loop. *)
Inductive step (E : Env) : St -> St -> Prop :=
| step_click : forall s, step E s (click_webauthn E s)
| step_cred : forall out s, step E s (resolve_cred E out s)
| step_cam : forall out s, step E s (resolve_cam out s)
| step_timer : forall s, step E s (fire_timer s)
| step_toggle : forall s, step E s (click_toggle E s)
| step_toggle_cam : forall out s, step E s (resolve_toggle out s).

Inductive reachable (E : Env) (st0 : storage) : St -> Prop :=
| reach_init : reachable E st0 (init st0)
| reach_step : forall s s', reachable E st0 s -> step E s s' -> reachable E st0 s'.

(** One whole biometric flow, when the platform settles its credential call
    with [oc] and its secondary camera request with [om]. *)
Definition run_flow (E : Env) (oc : cred_outcome) (om : gum_outcome) (s : St) : St :=
  if isAuthenticating s then s else
  let s1 := click_webauthn E s in
  match phase s1 with
  | BWaitCred _ =>
      let s2 := resolve_cred E oc s1 in
      match phase s2 with
      | BWaitCam => resolve_cam om s2
      | _ => s2
      end
  | _ => s1
  end.

End Main.

(** ** Browser detection ([detectBrowser] in [src/unnamed/part_000] and
       [detectWebAuthnBrowser] in [src/src/webauthn.ts]) *)
Module Browser.
Local Open Scope string_scope.
Local Open Scope nat_scope.

(** Strings are the UTF-8 bytes of the source text. [toLowerCase] is
    modelled on ASCII letters, which is exact for an ASCII user agent. *)
Fixpoint of_codes (l : list nat) : string :=
  match l with
  | [] => EmptyString
  | n :: r => String (ascii_of_nat n) (of_codes r)
  end.

(** A double quote, and the bytes the source has between the menu names
    (a mis-encoded arrow, kept as written). *)
Definition dq : string := of_codes [34].
Definition arrow : string := of_codes [195; 162; 226; 128; 160; 226; 128; 153].

Definition lower (c : ascii) : ascii :=
  let n := nat_of_ascii c in
  if (65 <=? n) && (n <=? 90) then ascii_of_nat (n + 32) else c.

Definition upper (c : ascii) : ascii :=
  let n := nat_of_ascii c in
  if (97 <=? n) && (n <=? 122) then ascii_of_nat (n - 32) else c.

Fixpoint toLowerCase (s : string) : string :=
  match s with
  | EmptyString => EmptyString
  | String c r => String (lower c) (toLowerCase r)
  end.

(** [s.includes(sub)]: [sub] occurs in [s] at some index. *)
Fixpoint includes (s sub : string) : bool :=
  String.prefix sub s ||
  match s with
  | EmptyString => false
  | String _ r => includes r sub
  end.

Record BrowserInfo : Type := mkBrowserInfo {
  name : string;
  instructions : list string
}.

(** [detectBrowser] (lines 90-147) on [navigator.userAgent]. *)
Definition detectBrowser (userAgent : string) : BrowserInfo :=
  let userAgent := toLowerCase userAgent in
  if includes userAgent "edg/" then
    mkBrowserInfo "edge"
      ["Click the lock icon in the address bar";
       "Click " +s+ dq +s+ "Permissions for this site" +s+ dq;
       "Find " +s+ dq +s+ "Camera" +s+ dq +s+ " and select " +s+ dq +s+ "Allow" +s+ dq;
       "Refresh the page and try again"]
  else if includes userAgent "chrome" && negb (includes userAgent "edg") then
    mkBrowserInfo "chrome"
      ["Click the camera icon in the address bar";
       "Select " +s+ dq +s+ "Always allow camera access" +s+ dq;
       "Click " +s+ dq +s+ "Done" +s+ dq;
       "Refresh the page and try again"]
  else if includes userAgent "firefox" then
    mkBrowserInfo "firefox"
      ["Click the camera icon in the address bar";
       "Remove the blocked permission";
       "Click " +s+ dq +s+ "Enable Camera" +s+ dq +s+ " again to allow access"]
  else if includes userAgent "safari" then
    mkBrowserInfo "safari"
      ["Go to Safari menu " +s+ arrow +s+ " Settings for This Website";
       "Find " +s+ dq +s+ "Camera" +s+ dq +s+ " and select " +s+ dq +s+ "Allow" +s+ dq;
       "Refresh the page and try again"]
  else
    mkBrowserInfo "unknown"
      ["Look for a camera icon in your address bar";
       "Click it and allow camera access";
       "Refresh the page and try again"].

(** [detectWebAuthnBrowser] (lines 323-386) on [navigator.userAgent]. *)
Definition detectWebAuthnBrowser (userAgent : string) : BrowserInfo :=
  let userAgent := toLowerCase userAgent in
  if includes userAgent "edg/" then
    mkBrowserInfo "edge"
      ["Go to Settings " +s+ arrow +s+ " Accounts " +s+ arrow +s+ " Sign-in options";
       "Set up Windows Hello (Face, Fingerprint, or PIN)";
       "Ensure " +s+ dq +s+ "Use Windows Hello for passkey verification" +s+ dq +s+ " is enabled";
       "Refresh the page and try again"]
  else if includes userAgent "chrome" && negb (includes userAgent "edg") then
    mkBrowserInfo "chrome"
      ["Ensure you have a screen lock set up (PIN, pattern, or password)";
       "On Windows: Set up Windows Hello in Settings";
       "On Mac: Ensure Touch ID is enabled in System Settings";
       "On mobile: Ensure biometric authentication is enabled";
       "Refresh the page and try again"]
  else if includes userAgent "firefox" then
    mkBrowserInfo "firefox"
      ["Ensure you have biometric authentication configured on your device";
       "On Windows: Set up Windows Hello";
       "On Mac: Ensure Touch ID is enabled";
       "Allow Firefox to access your security key or biometric authenticator";
       "Refresh the page and try again"]
  else if includes userAgent "safari" then
    mkBrowserInfo "safari"
      ["On Mac: Go to System Settings " +s+ arrow +s+ " Touch ID & Password";
       "Ensure Touch ID is enabled and configured";
       "On iPhone/iPad: Ensure Face ID or Touch ID is enabled in Settings";
       "Make sure Safari can use biometric authentication";
       "Refresh the page and try again"]
  else
    mkBrowserInfo "unknown"
      ["Ensure your device has biometric authentication enabled (Face ID, Touch ID, Windows Hello)";
       "Check that your browser is up to date";
       "Make sure your browser can access biometric authentication";
       "Try using Chrome, Safari, Firefox, or Edge for best compatibility"].

End Browser.

(** ** Messages of the page ([src/src/main.ts], lines 165-224) *)
Module Ui.
Import Browser.
Local Open Scope string_scope.
Local Open Scope nat_scope.

(** The three message elements: hidden or not, and their [innerHTML]. *)
Record Ui : Type := mkUi {
  statusHidden : bool;
  errorHidden : bool;
  errorHtml : string;
  helpHidden : bool;
  helpHtml : string
}.

Definition nl : string := of_codes [10].

(** [hideMessages] (lines 165-169). *)
Definition hideMessages (u : Ui) : Ui :=
  mkUi true true (errorHtml u) true (helpHtml u).

(** [`${v}`] of a string-or-undefined property. *)
Definition template_str (o : option string) : string :=
  match o with Some m => m | None => "undefined" end.

(** [error.type === t] *)
Definition type_is (e : jsval) (t : string) : bool :=
  match js_type e with Some x => String.eqb x t | None => false end.

(** [name.charAt(0).toUpperCase() + name.slice(1)] *)
Definition capitalize (s : string) : string :=
  match s with
  | EmptyString => EmptyString
  | String c r => String (upper c) r
  end.

Definition display_name (b : BrowserInfo) : string :=
  if String.eqb (name b) "unknown" then "your browser" else capitalize (name b).

Definition error_html (e : jsval) : string :=
  nl +s+ "    <strong>Error:</strong> " +s+ template_str (js_message e) +s+ nl +s+ "  ".

Definition li (instruction : string) : string := "<li>" +s+ instruction +s+ "</li>".

(** The help block for [what] ("camera access" or "biometric
    authentication"). *)
Definition help_html (what : string) (b : BrowserInfo) : string :=
  nl +s+ "      <h3>How to enable " +s+ what +s+ " in " +s+ display_name b +s+ ":</h3>"
  +s+ nl +s+ "      <ol>" +s+ nl +s+ "        "
  +s+ String.concat EmptyString (map li (instructions b))
  +s+ nl +s+ "      </ol>" +s+ nl +s+ "    ".

(** [showError] (lines 186-224), on the browser's [navigator.userAgent]. *)
Definition showError (userAgent : string) (error : jsval) (u : Ui) : Ui :=
  let u := mkUi (statusHidden u) false (error_html error) (helpHidden u) (helpHtml u) in
  if type_is error "permission-denied" then
    mkUi (statusHidden u) (errorHidden u) (errorHtml u) false
         (help_html "camera access" (detectBrowser userAgent))
  else if type_is error "not-allowed" || type_is error "not-supported" then
    mkUi (statusHidden u) (errorHidden u) (errorHtml u) false
         (help_html "biometric authentication" (detectWebAuthnBrowser userAgent))
  else u.

End Ui.

(** ** [clearStoredCredential] ([src/src/webauthn.ts]) *)
Module Options.


End Options.

(** ** Specification-side vocabulary and sample inputs *)
Module Spec.

(** A code unit that is a byte. *)
Definition in_byte_range (c : Z) : Prop := (0 <= c < 256)%Z.

(** Events a flow may log before its credential call. *)
Definition probe_or_lookup (e : event) : Prop := e = EvSupportProbe \/ e = EvStoreLookup.

Definition is_idle (p : Main.bio_phase) : bool :=
  match p with Main.BIdle => true | _ => false end.

(** The documented tables: platform error identity, and the kind. *)
Definition camera_table : list (string * string) :=
  [("NotAllowedError", "permission-denied"); ("PermissionDeniedError", "permission-denied");
   ("NotFoundError", "not-found"); ("DevicesNotFoundError", "not-found");
   ("NotReadableError", "in-use"); ("TrackStartError", "in-use")]%string.

Definition biometric_table : list (string * string) :=
  [("NotAllowedError", "not-allowed"); ("NotSupportedError", "not-supported");
   ("InvalidStateError", "invalid-state"); ("TimeoutError", "timeout");
   ("AbortError", "timeout")]%string.

(** A credential identifier as a platform might return it. *)
Definition sample_raw_id : list Byte.byte := [Byte.x01; Byte.x02; Byte.xfe; Byte.xff].

(** A browser with both APIs. *)
Definition env_full : Main.Env := Main.mkEnv true true.

(** Camera toggled on, then a first biometric trigger (registration) whose
    secondary camera request succeeds. *)
Definition toggle_then_register : Main.St :=
  Main.resolve_cam Camera.GumOk
    (Main.resolve_cred env_full (WebAuthn.CredResolve (Some sample_raw_id))
       (Main.click_webauthn env_full
          (Main.resolve_toggle Camera.GumOk
             (Main.click_toggle env_full (Main.init None))))).

(** Then the 3 s timeout fires and the user presses "Stop Camera". *)
Definition then_stop : Main.St :=
  Main.click_toggle env_full (Main.fire_timer toggle_then_register).

End Spec.

(** ** Invariants of the page state *)
Module Inv.
Import Camera Main.

(** The tracked stream is live, and every live stream was handed out
    before [next_id]. *)
Definition gw_ok (g : Gw) : Prop :=
  (forall x, currentStream g = Some x -> In x (live g)) /\
  Forall (fun x => x < next_id g) (live g).

(** [video.srcObject] is the stream the camera module tracks. *)
Definition page_ok (s : St) : Prop := srcObject s = currentStream (gw s) /\ gw_ok (gw s).

(** The states the event loop can reach from a given one. *)
Inductive steps (E : Env) : St -> St -> Prop :=
| steps_refl : forall s, steps E s s
| steps_cons : forall s s1 s', step E s s1 -> steps E s1 s' -> steps E s s'.

End Inv.

(** * Proofs *)

(** ** Base64 round trip *)
Module Base64Facts.
Import Base64 Spec.
Local Open Scope Z_scope.

Example btoa_sample :
  Base64.btoa [77; 97; 110]%Z = Some "TWFu"%string /\
  Base64.btoa [77; 97]%Z = Some "TWE="%string /\
  Base64.atob "TQ=="%string = Some [77%Z].
Proof. vm_compute. auto. Qed.

Lemma list_ind3 {A : Type} (P : list A -> Prop)
  (H0 : P []) (H1 : forall a, P [a]) (H2 : forall a b, P [a; b])
  (H3 : forall a b c r, P r -> P (a :: b :: c :: r)) : forall l, P l.
Proof.
  fix IH 1. intros [|a [|b [|c r]]]; [apply H0 | apply H1 | apply H2 | apply H3, IH].
Qed.

Lemma sx_props : forall v, 0 <= v < 64 ->
  char_value (sx v) = Some v /\ Ascii.eqb (sx v) pad_char = false /\
  is_ascii_ws (sx v) = false.
Proof.
  intros v Hv.
  assert (Hc : forallb (fun n => let w := Z.of_nat n in
             match char_value (sx w) with Some u => Z.eqb u w | None => false end
             && negb (Ascii.eqb (sx w) pad_char) && negb (is_ascii_ws (sx w)))
             (seq 0 64) = true) by (vm_compute; reflexivity).
  rewrite forallb_forall in Hc.
  specialize (Hc (Z.to_nat v)). rewrite in_seq, Z2Nat.id in Hc by lia.
  specialize (Hc ltac:(lia)). cbv zeta in Hc.
  destruct (char_value (sx v)) as [u|]; [|discriminate].
  apply andb_prop in Hc as [Hc Hw]. apply andb_prop in Hc as [Hu Hp].
  apply Z.eqb_eq in Hu. apply negb_true_iff in Hp, Hw. subst. auto.
Qed.

Lemma sextets_range : forall l, Forall in_byte_range l ->
  Forall (fun v => 0 <= v < 64) (sextets l).
Proof.
  unfold in_byte_range.
  induction l using list_ind3; intros H; simpl;
    repeat match goal with
           | H : Forall _ (_ :: _) |- _ => inversion H; subst; clear H
           end;
    repeat constructor; try (apply IHl; assumption);
    Z.div_mod_to_equations; lia.
Qed.

Lemma decode_sextets_ok : forall l, Forall in_byte_range l ->
  decode_sextets (sextets l) = Some l.
Proof.
  unfold in_byte_range.
  induction l using list_ind3; intros H;
    repeat match goal with
           | H : Forall _ (_ :: _) |- _ => inversion H; subst; clear H
           end; simpl.
  - reflexivity.
  - f_equal. f_equal. Z.div_mod_to_equations; lia.
  - f_equal. f_equal; [|f_equal]; Z.div_mod_to_equations; lia.
  - rewrite IHl by assumption. f_equal.
    f_equal; [|f_equal; [|f_equal]]; Z.div_mod_to_equations; lia.
Qed.

Lemma pad_len_3 : forall n, pad_len (3 + n) = pad_len n.
Proof.
  intros n. unfold pad_len.
  replace (3 + n)%nat with (n + 1 * 3)%nat by lia.
  rewrite Nat.Div0.mod_add. reflexivity.
Qed.

Lemma sextets_length : forall l,
  (exists k, length (sextets l) + pad_len (length l) = 4 * k)%nat /\
  (exists k, length (sextets l) = 4 * k \/ length (sextets l) = 4 * k + 2 \/
             length (sextets l) = 4 * k + 3)%nat /\
  (l <> [] -> sextets l <> []) /\
  (pad_len (length l) <= 2)%nat.
Proof.
  induction l using list_ind3.
  - repeat split. exists 0%nat; reflexivity. exists 0%nat; auto. contradiction. cbn; lia.
  - repeat split. exists 1%nat; reflexivity. exists 0%nat; auto. discriminate. cbn; lia.
  - repeat split. exists 1%nat; reflexivity. exists 0%nat; auto. discriminate. cbn; lia.
  - destruct IHl as [[k Hk] [[k' Hk'] [_ Hp]]].
    change (length (a :: b :: c :: l)) with (3 + length l)%nat.
    rewrite pad_len_3. simpl length. repeat split.
    + exists (S k). lia.
    + exists (S k'). lia.
    + discriminate.
    + exact Hp.
Qed.

Lemma strip_pad_ok : forall L p,
  Forall (fun c => Ascii.eqb c pad_char = false) L ->
  (p <= 2)%nat -> (exists k, length L + p = 4 * k)%nat -> ((0 < p)%nat -> L <> []) ->
  strip_pad (L ++ repeat pad_char p) = L.
Proof.
  intros L p HL Hp [k Hk] Hne. unfold strip_pad.
  rewrite length_app, repeat_length, Hk.
  replace (4 * k)%nat with (0 + k * 4)%nat by lia. rewrite Nat.Div0.mod_add.
  simpl Nat.eqb. cbv iota.
  rewrite Forall_forall in HL.
  destruct p as [|[|[|p]]]; [| | |lia].
  - rewrite app_nil_r. destruct (rev L) as [|x [|y r]] eqn:E; try reflexivity.
    + rewrite HL; [reflexivity|]. apply in_rev. rewrite E. left; reflexivity.
    + rewrite HL; [reflexivity|]. apply in_rev. rewrite E. left; reflexivity.
  - simpl repeat. rewrite rev_app_distr. simpl rev at 1. simpl app.
    destruct (rev L) as [|y r] eqn:E.
    + exfalso. apply Hne; [lia|]. apply (f_equal (@rev _)) in E.
      rewrite rev_involutive in E. exact E.
    + assert (Hy : Ascii.eqb y pad_char = false)
        by (apply HL, in_rev; rewrite E; left; reflexivity).
      cbn [Ascii.eqb pad_char]. fold pad_char. rewrite Hy.
      rewrite <- E, rev_involutive. reflexivity.
  - simpl repeat. rewrite rev_app_distr. simpl.
    rewrite rev_involutive. reflexivity.
Qed.

Lemma filter_no_ws : forall l, Forall (fun c => is_ascii_ws c = false) l ->
  filter (fun c => negb (is_ascii_ws c)) l = l.
Proof.
  induction l as [|c l IH]; intros H; [reflexivity|].
  inversion H; subst. simpl. rewrite H2. simpl. f_equal. apply IH. assumption.
Qed.

Lemma values_map_sx : forall S, Forall (fun v => 0 <= v < 64) S ->
  values (map sx S) = Some S.
Proof.
  induction S as [|v S IH]; intros H; [reflexivity|].
  inversion H; subst. simpl.
  destruct (sx_props v H2) as [-> _]. rewrite IH by assumption. reflexivity.
Qed.

Lemma mod4_not_1 : forall n, (exists k, n = 4 * k \/ n = 4 * k + 2 \/ n = 4 * k + 3)%nat ->
  Nat.eqb (n mod 4) 1 = false.
Proof.
  intros n [k [H|[H|H]]]; subst.
  - replace (4 * k)%nat with (0 + k * 4)%nat by lia. rewrite Nat.Div0.mod_add. reflexivity.
  - replace (4 * k + 2)%nat with (2 + k * 4)%nat by lia. rewrite Nat.Div0.mod_add. reflexivity.
  - replace (4 * k + 3)%nat with (3 + k * 4)%nat by lia. rewrite Nat.Div0.mod_add. reflexivity.
Qed.

(** [atob] inverts [btoa] on byte-valued code units. *)
Lemma btoa_atob : forall codes, Forall in_byte_range codes ->
  exists b64, btoa codes = Some b64 /\ atob b64 = Some codes /\
              (codes <> [] -> b64 <> ""%string).
Proof.
  intros codes Hc.
  assert (Hr := sextets_range codes Hc).
  destruct (sextets_length codes) as [Hlen [Hmod [Hne Hp]]].
  exists (string_of_list_ascii (encode codes)). split; [|split].
  - unfold btoa.
    replace (forallb _ codes) with true; [reflexivity|].
    symmetry. apply forallb_forall. intros c Hin.
    rewrite Forall_forall in Hc. specialize (Hc c Hin). unfold in_byte_range in Hc.
    apply andb_true_intro. split; [apply Z.leb_le | apply Z.ltb_lt]; lia.
  - unfold atob. rewrite list_ascii_of_string_of_list_ascii.
    unfold encode. rewrite filter_no_ws.
    2:{ apply Forall_app. split.
        - apply Forall_map. eapply Forall_impl; [|exact Hr].
          intros v Hv. apply (sx_props v Hv).
        - apply Forall_forall. intros c Hin. apply repeat_spec in Hin. subst. reflexivity. }
    rewrite strip_pad_ok.
    + rewrite length_map, mod4_not_1 by exact Hmod.
      rewrite values_map_sx by exact Hr. apply decode_sextets_ok. exact Hc.
    + apply Forall_map. eapply Forall_impl; [|exact Hr]. intros v Hv. apply (sx_props v Hv).
    + exact Hp.
    + rewrite length_map. exact Hlen.
    + intros Hpos Hnil. apply map_eq_nil in Hnil.
      destruct codes; [cbn in Hpos; lia|]. apply Hne in Hnil; [exact Hnil|discriminate].
  - intros Hcn. apply Hne in Hcn. unfold encode.
    destruct (sextets codes); [contradiction|]. discriminate.
Qed.

End Base64Facts.

(** ** WebAuthn gateway *)
Module WebAuthnFacts.
Import WebAuthn Spec.

Lemma byte_codes_in_range : forall raw : list Byte.byte,
  Forall in_byte_range (map byte_code raw).
Proof.
  intros raw. apply Forall_map, Forall_forall. intros b _.
  unfold in_byte_range, byte_code.
  pose proof (Byte.to_N_bounded b). lia.
Qed.

Lemma stored_roundtrip : forall raw : list Byte.byte, raw <> [] ->
  exists b64, storeCredentialId raw = Some b64 /\ b64 <> ""%string /\
    getStoredCredentialId (Some b64) = Some (map byte_code raw).
Proof.
  intros raw Hraw.
  destruct (Base64Facts.btoa_atob (map byte_code raw) (byte_codes_in_range raw))
    as [b64 [Henc [Hdec Hne]]].
  assert (Hb : b64 <> ""%string).
  { apply Hne. intros Hm. apply map_eq_nil in Hm. contradiction. }
  exists b64. split; [exact Henc|split; [exact Hb|]].
  unfold getStoredCredentialId, base64ToUint8Array.
  destruct (String.eqb_spec b64 "") as [E|E]; [contradiction|].
  rewrite Hdec. f_equal. rewrite <- map_id. apply map_ext_in.
  intros c Hin. pose proof (byte_codes_in_range raw) as Hr.
  rewrite Forall_forall in Hr. specialize (Hr c Hin).
  unfold in_byte_range in Hr. apply Z.mod_small. lia.
Qed.

(** C7: after every successful registration the store holds the base64 of
    the identifier the platform returned; when that identifier is non-empty
    (WebAuthn credential ids are at least 16 bytes) the stored item is
    non-empty, reading it back gives exactly that identifier (the base64
    store and read are a round trip), and a following [authenticateUser]
    issues [navigator.credentials.get] with that identifier as its only
    allowed credential. *)
Theorem registration_stores_credential_id :
  forall sup out st evs r st',
    registerCredential sup out st = (evs, inl r, st') ->
    exists rawId b64,
      out = CredResolve (Some rawId) /\ credential r = Some rawId /\
      st' = Some b64 /\
      (rawId <> [] ->
        b64 <> ""%string /\
        getStoredCredentialId st' = Some (map byte_code rawId) /\
        forall out', fst (authenticateUser sup st' out') =
          [EvSupportProbe; EvStoreLookup; EvPlatform (CallGet [map byte_code rawId]);
           EvSuspend SCred; EvCredSettled]).
Proof.
  intros sup out st evs r st' H.
  unfold registerCredential, register_start in H.
  destruct sup; [|discriminate]. simpl in H.
  destruct out as [[rawId|]|e]; simpl in H; try discriminate.
  destruct (storeCredentialId rawId) as [b64|] eqn:Hst; [|discriminate].
  inversion H; subst.
  exists rawId, b64. split; [reflexivity|split; [reflexivity|split; [reflexivity|]]].
  intros Hraw.
  destruct (stored_roundtrip rawId Hraw) as [b64' [Hst' [Hb Hget]]].
  rewrite Hst in Hst'. inversion Hst'; subst.
  split; [exact Hb|split; [exact Hget|]].
  intros out'. unfold authenticateUser, authenticate_start.
  rewrite Hget. reflexivity.
Qed.

Lemma registration_stores_credential_id_witness :
  registerCredential true (CredResolve (Some sample_raw_id)) None =
    ([EvSupportProbe; EvPlatform CallCreate; EvSuspend SCred; EvCredSettled],
     inl (mkResult true (Some sample_raw_id) true), Some "AQL+/w=="%string) /\
  exists rawId b64,
    CredResolve (Some sample_raw_id) = CredResolve (Some rawId) /\
    Some sample_raw_id = Some rawId /\ Some "AQL+/w=="%string = Some b64 /\
    (rawId <> [] ->
      b64 <> ""%string /\
      getStoredCredentialId (Some "AQL+/w=="%string) = Some (map byte_code rawId) /\
      forall out', fst (authenticateUser true (Some "AQL+/w=="%string) out') =
        [EvSupportProbe; EvStoreLookup; EvPlatform (CallGet [map byte_code rawId]);
         EvSuspend SCred; EvCredSettled]).
Proof.
  split; [vm_compute; reflexivity|].
  exact (registration_stores_credential_id true (CredResolve (Some sample_raw_id)) None
           _ _ _ (eq_refl _)).
Defined.

(** C5 (counterexample): without the platform credential API, authenticate
    with an empty store fails with [not-supported], not [invalid-state]. *)
Lemma authenticate_no_credential_unsupported :
  authenticateUser false None (CredResolve None) = ([EvSupportProbe], inr not_supported_error) /\
  js_type not_supported_error = Some "not-supported"%string /\
  js_type not_supported_error <> Some "invalid-state"%string.
Proof. split; [reflexivity|split; [reflexivity|discriminate]]. Qed.

(** C5 (amended): with no credential identifier stored, [authenticateUser]
    makes no platform credential call and fails: with [invalid-state] when
    the credential API is present, with [not-supported] when it is absent
    (the support probe runs first). *)
Theorem authenticate_without_credential :
  forall sup st out, getStoredCredentialId st = None ->
    count_calls (fst (authenticateUser sup st out)) = 0%nat /\
    snd (authenticateUser sup st out) =
      inr (if sup then no_credential_error else not_supported_error) /\
    js_type (if sup then no_credential_error else not_supported_error) =
      Some (if sup then "invalid-state" else "not-supported")%string.
Proof.
  intros sup st out H. unfold authenticateUser, authenticate_start.
  destruct sup; simpl; [rewrite H|]; simpl; auto.
Qed.

Lemma authenticate_without_credential_witness :
  getStoredCredentialId None = None /\
  count_calls (fst (authenticateUser true None (CredResolve None))) = 0%nat /\
  snd (authenticateUser true None (CredResolve None)) = inr no_credential_error /\
  js_type no_credential_error = Some "invalid-state"%string.
Proof.
  split; [reflexivity|].
  exact (authenticate_without_credential true None (CredResolve None) eq_refl).
Defined.

(** C6: both [catch] blocks re-raise an error that already carries a
    (truthy) [type] unchanged; the explicit [not-supported] and
    [invalid-state] pre-checks reach the caller as built. *)
Theorem classified_errors_reraised :
  forall ty msg orig, ty <> ""%string ->
    register_catch (mk_error ty msg orig) = mk_error ty msg orig /\
    authenticate_catch (mk_error ty msg orig) = mk_error ty msg orig /\
    (forall out st, registerCredential false out st =
        ([EvSupportProbe], inr not_supported_error, st)) /\
    (forall st out, authenticateUser false st out =
        ([EvSupportProbe], inr not_supported_error)) /\
    (forall st out, getStoredCredentialId st = None ->
        authenticateUser true st out =
        ([EvSupportProbe; EvStoreLookup], inr no_credential_error)).
Proof.
  intros ty msg orig Hty.
  assert (Ht : truthy (Some ty) = true).
  { simpl. apply negb_true_iff, String.eqb_neq. exact Hty. }
  unfold register_catch, authenticate_catch. simpl js_type. rewrite Ht.
  split; [reflexivity|split; [reflexivity|split; [|split]]].
  - reflexivity.
  - reflexivity.
  - intros st out H. unfold authenticateUser, authenticate_start. rewrite H. reflexivity.
Qed.

Lemma classified_errors_reraised_witness :
  register_catch no_credential_error = no_credential_error /\
  authenticate_catch no_credential_error = no_credential_error /\
  (forall out st, registerCredential false out st =
      ([EvSupportProbe], inr not_supported_error, st)) /\
  (forall st out, authenticateUser false st out =
      ([EvSupportProbe], inr not_supported_error)) /\
  (forall st out, getStoredCredentialId st = None ->
      authenticateUser true st out =
      ([EvSupportProbe; EvStoreLookup], inr no_credential_error)).
Proof.
  exact (classified_errors_reraised "invalid-state" "No credential found. Please register first."
           None ltac:(discriminate)).
Defined.

(** C10: whenever [registerCredential] or [authenticateUser] returns
    normally its result has [success = true], with [isNewRegistration] true
    for registration and false for authentication; so the orchestrator's
    [if (result.success)] never takes its false branch. *)
Theorem returned_results_succeed :
  forall sup out st evs r st',
    (registerCredential sup out st = (evs, inl r, st') ->
       success r = true /\ isNewRegistration r = true) /\
    (authenticateUser sup st out = (evs, inl r) ->
       success r = true /\ isNewRegistration r = false).
Proof.
  intros sup out st evs r st'. split; intros H.
  - unfold registerCredential, register_start in H.
    destruct sup; simpl in H; [|discriminate].
    destruct out as [[rawId|]|e]; simpl in H; try discriminate.
    destruct (storeCredentialId rawId); inversion H; subst; auto.
  - unfold authenticateUser, authenticate_start in H.
    destruct sup; simpl in H; [|discriminate].
    destruct (getStoredCredentialId st); simpl in H; [|discriminate].
    destruct out as [[c|]|e]; simpl in H; inversion H; subst; auto.
Qed.

Lemma returned_results_succeed_witness :
  registerCredential true (CredResolve (Some sample_raw_id)) None =
    ([EvSupportProbe; EvPlatform CallCreate; EvSuspend SCred; EvCredSettled],
     inl (mkResult true (Some sample_raw_id) true), Some "AQL+/w=="%string) /\
  success (mkResult true (Some sample_raw_id) true) = true /\
  isNewRegistration (mkResult true (Some sample_raw_id) true) = true.
Proof.
  assert (H : registerCredential true (CredResolve (Some sample_raw_id)) None =
    ([EvSupportProbe; EvPlatform CallCreate; EvSuspend SCred; EvCredSettled],
     inl (mkResult true (Some sample_raw_id) true), Some "AQL+/w=="%string))
    by (vm_compute; reflexivity).
  split; [exact H|].
  exact (proj1 (returned_results_succeed true (CredResolve (Some sample_raw_id)) None _ _ _) H).
Defined.

End WebAuthnFacts.

(** ** Error classification tables *)
Module ClassifierFacts.
Import Camera WebAuthn Spec.

Lemma name_is_platform : forall n m x,
  name_is (platform_error n m) x = String.eqb n x.
Proof. reflexivity. Qed.

Ltac not_in_table H :=
  repeat match goal with
         | |- context [String.eqb ?n ?x] =>
             destruct (String.eqb_spec n x);
             [subst; exfalso; apply H; simpl; tauto|]
         end.

(** C3: every identity of the tables is classified as its documented kind,
    by the camera classifier and by both biometric classifiers; every other
    identity gives [unknown], whose message is a fixed prefix followed by the
    platform message (or [Unknown error] when that message is empty). *)
Theorem error_classification :
  Forall (fun nk => forall m,
            js_type (camera_catch (platform_error (fst nk) m)) = Some (snd nk)) camera_table /\
  Forall (fun nk => forall m,
            js_type (register_catch (platform_error (fst nk) m)) = Some (snd nk) /\
            js_type (authenticate_catch (platform_error (fst nk) m)) = Some (snd nk))
         biometric_table /\
  (forall n m, ~ In n (map fst camera_table) ->
     camera_catch (platform_error n m) =
       mk_error "unknown" ("Unable to access camera: " +s+ message_or_unknown (Some m))
         (Some (platform_error n m))) /\
  (forall n m, ~ In n (map fst biometric_table) ->
     register_catch (platform_error n m) =
       mk_error "unknown"
         ("Unable to register biometric authentication: " +s+ message_or_unknown (Some m))
         (Some (platform_error n m)) /\
     authenticate_catch (platform_error n m) =
       mk_error "unknown" ("Unable to authenticate: " +s+ message_or_unknown (Some m))
         (Some (platform_error n m))) /\
  (forall m, m <> ""%string -> message_or_unknown (Some m) = m).
Proof.
  split; [|split; [|split; [|split]]].
  - repeat constructor.
  - repeat constructor.
  - intros n m H. unfold camera_catch. rewrite !name_is_platform.
    not_in_table H. reflexivity.
  - intros n m H. unfold register_catch, authenticate_catch. simpl js_type.
    cbv [truthy]. rewrite !name_is_platform. not_in_table H. split; reflexivity.
  - intros m Hm. simpl. destruct (String.eqb_spec m ""); [contradiction|reflexivity].
Qed.

Lemma error_classification_witness :
  camera_catch (platform_error "OverconstrainedError" "bad") =
    mk_error "unknown" ("Unable to access camera: " +s+ "bad")
      (Some (platform_error "OverconstrainedError" "bad")) /\
  message_or_unknown (Some "bad"%string) = "bad"%string.
Proof.
  destruct error_classification as [_ [_ [Hc [_ Hm]]]].
  rewrite <- (Hm "bad"%string) at 2 by discriminate.
  split; [apply Hc; simpl; intuition discriminate | apply Hm; discriminate].
Defined.

End ClassifierFacts.

(** ** Camera gateway *)
Module CameraFacts.
Import Camera.

(** C4 (code bug): without [getUserMedia] the [not-supported] error thrown
    inside the [try] is caught by the same block's [catch], which has no
    [type] check, and leaves as [unknown]. *)
Theorem camera_absent_reclassified :
  forall out g,
    requestCameraAccess false out g =
      (inr (mk_error "unknown" ("Unable to access camera: " +s+ not_supported_msg)
              (Some not_supported_error)), g) /\
    js_type (mk_error "unknown" ("Unable to access camera: " +s+ not_supported_msg)
              (Some not_supported_error)) <> Some "not-supported"%string.
Proof. intros out g. split; [reflexivity|discriminate]. Qed.

(** C8: a failed [requestCameraAccess] leaves the module state, and so
    [currentStream], exactly as it was; [currentStream] changes only on
    success, to the new stream. *)
Theorem failed_request_keeps_stream :
  forall md out g r g',
    requestCameraAccess md out g = (r, g') ->
    (forall e, r = inr e -> g' = g) /\
    (forall stream, r = inl stream -> currentStream g' = Some stream).
Proof.
  intros md out g r g' H.
  unfold requestCameraAccess, camera_settle in H.
  destruct md; simpl in H.
  - destruct out; inversion H; subst; split; intros; try discriminate; auto.
    match goal with E : inl _ = inl _ |- _ => inversion E; subst end. reflexivity.
  - inversion H; subst. split; intros; [reflexivity|discriminate].
Qed.

Lemma failed_request_keeps_stream_witness :
  let g := mkGw (Some 0%nat) [0%nat] 1 in
  requestCameraAccess true (GumErr (platform_error "NotFoundError" "none")) g =
    (inr (camera_catch (platform_error "NotFoundError" "none")), g) /\
  (forall e, inr (camera_catch (platform_error "NotFoundError" "none")) = @inr nat jsval e ->
     g = g) /\
  (forall stream, inr (camera_catch (platform_error "NotFoundError" "none")) = @inl nat jsval stream ->
     currentStream g = Some stream).
Proof.
  cbv zeta. split; [reflexivity|].
  exact (failed_request_keeps_stream true (GumErr (platform_error "NotFoundError" "none"))
           (mkGw (Some 0%nat) [0%nat] 1) _ _ eq_refl).
Defined.

End CameraFacts.

(** ** Orchestrator *)
Module MainFacts.
Import Camera WebAuthn Main Spec.

Lemma fail_flow_facts : forall e s,
  isAuthenticating (fail_flow e s) = false /\ phase (fail_flow e s) = BIdle /\
  trace (fail_flow e s) = trace s.
Proof. intros e s. unfold fail_flow. destruct (srcObject _); auto. Qed.

Lemma finish_flow_facts : forall s,
  isAuthenticating (finish_flow s) = false /\ phase (finish_flow s) = BIdle /\
  trace (finish_flow s) = trace s.
Proof. intros s. auto. Qed.

Lemma click_cases : forall E s, isAuthenticating s = false ->
  (isAuthenticating (click_webauthn E s) = false /\ phase (click_webauthn E s) = BIdle) \/
  (exists a, isAuthenticating (click_webauthn E s) = true /\
             phase (click_webauthn E s) = BWaitCred a).
Proof.
  intros E s Hb. unfold click_webauthn. rewrite Hb.
  destruct (webauthn_present E); simpl negb; cbv iota.
  2:{ left. destruct (fail_flow_facts main_not_supported_error
                        (log [EvSupportProbe] (set_busy true s))) as [? [? _]]. auto. }
  destruct (getStoredCredentialId _).
  - destruct (authenticate_start _ _) as [evs [c|e]].
    + right. exists true. auto.
    + left. destruct (fail_flow_facts e (log (evs ++ [EvSuspend SMicro])
                        (log [EvSupportProbe; EvStoreLookup] (set_busy true s)))) as [? [? _]]. auto.
  - destruct (register_start _) as [evs [c|e]].
    + right. exists false. auto.
    + left. destruct (fail_flow_facts e (log (evs ++ [EvSuspend SMicro])
                        (log [EvSupportProbe; EvStoreLookup] (set_busy true s)))) as [? [? _]]. auto.
Qed.

Lemma cred_cases : forall E out s a, phase s = BWaitCred a -> isAuthenticating s = true ->
  (isAuthenticating (resolve_cred E out s) = false /\ phase (resolve_cred E out s) = BIdle) \/
  (isAuthenticating (resolve_cred E out s) = true /\ phase (resolve_cred E out s) = BWaitCam).
Proof.
  intros E out s a Hp Hb. unfold resolve_cred. rewrite Hp.
  destruct (if a then _ else _) as [r st'].
  destruct r as [res|e].
  2:{ left. destruct (fail_flow_facts e (set_store st' (log [EvCredSettled] s))) as [? [? _]]. auto. }
  destruct (success res); [|left; auto].
  destruct (media_present E).
  - right. destruct a; simpl; auto.
  - left. auto.
Qed.

Lemma cam_cases : forall out s, phase s = BWaitCam ->
  isAuthenticating (resolve_cam out s) = false /\ phase (resolve_cam out s) = BIdle.
Proof.
  intros out s Hp. unfold resolve_cam. rewrite Hp.
  destruct (camera_settle _ _) as [[stream|e] g]; auto.
Qed.

Lemma step_keeps_busy_phase : forall E s s',
  step E s s' -> isAuthenticating s = negb (is_idle (phase s)) ->
  isAuthenticating s' = negb (is_idle (phase s')).
Proof.
  intros E s s' Hs Hi. destruct Hs as [s|out s|out s|s|s|out s].
  - destruct (isAuthenticating s) eqn:Hb.
    + assert (click_webauthn E s = s) as -> by (unfold click_webauthn; rewrite Hb; reflexivity).
      rewrite Hb. exact Hi.
    + destruct (click_cases E s Hb) as [[-> ->]|[a [-> ->]]]; reflexivity.
  - destruct (phase s) as [|a|] eqn:Hp.
    + assert (resolve_cred E out s = s) as -> by (unfold resolve_cred; rewrite Hp; reflexivity).
      rewrite Hp. exact Hi.
    + simpl in Hi.
      destruct (cred_cases E out s a Hp Hi) as [[-> ->]|[-> ->]]; reflexivity.
    + assert (resolve_cred E out s = s) as -> by (unfold resolve_cred; rewrite Hp; reflexivity).
      rewrite Hp. exact Hi.
  - destruct (phase s) as [|a|] eqn:Hp.
    + assert (resolve_cam out s = s) as -> by (unfold resolve_cam; rewrite Hp; reflexivity).
      rewrite Hp. exact Hi.
    + assert (resolve_cam out s = s) as -> by (unfold resolve_cam; rewrite Hp; reflexivity).
      rewrite Hp. exact Hi.
    + destruct (cam_cases out s Hp) as [-> ->]. reflexivity.
  - unfold fire_timer. destruct (timers s); exact Hi.
  - unfold click_toggle.
    destruct (toggleWaiting s); [exact Hi|].
    destruct (isCameraActive s); [exact Hi|].
    destruct (media_present E); exact Hi.
  - unfold resolve_toggle. destruct (toggleWaiting s); [|exact Hi]. simpl.
    destruct (camera_settle _ _) as [[stream|e] g]; exact Hi.
Qed.

Lemma reachable_busy_phase : forall E st0 s, reachable E st0 s ->
  isAuthenticating s = negb (is_idle (phase s)).
Proof.
  intros E st0 s Hr. induction Hr as [|s s' Hr IH Hs].
  - reflexivity.
  - eapply step_keeps_busy_phase; eassumption.
Qed.

Lemma count_calls_app : forall l1 l2, count_calls (l1 ++ l2) = (count_calls l1 + count_calls l2)%nat.
Proof. intros. unfold count_calls. rewrite filter_app, length_app. reflexivity. Qed.

Lemma app_split_notin {A : Type} : forall (l1 l2 pre post : list A) x,
  ~ In x l1 -> l1 ++ l2 = pre ++ x :: post -> exists mid, pre = l1 ++ mid.
Proof.
  induction l1 as [|y l1 IH]; intros l2 pre post x Hn He.
  - exists pre. reflexivity.
  - destruct pre as [|z pre].
    + simpl in He. inversion He; subst. exfalso. apply Hn. left. reflexivity.
    + simpl in He. inversion He; subst.
      destruct (IH l2 pre post x) as [mid Hm]; [intros Hi; apply Hn; right; exact Hi|exact H1|].
      exists mid. rewrite Hm. reflexivity.
Qed.

Lemma first_susp_issue : forall pre c rest, Forall probe_or_lookup pre ->
  first_susp (pre ++ EvPlatform c :: EvSuspend SCred :: rest) = Some (pre ++ [EvPlatform c], SCred).
Proof.
  induction pre as [|e pre IH]; intros c rest H; [reflexivity|].
  inversion H as [|? ? He Hpre]; subst.
  destruct He as [-> | ->]; simpl; rewrite IH by exact Hpre; reflexivity.
Qed.

(** The synchronous segment of the click: either the support check fails
    and the flow is over, or the credential call is issued, after probes and
    lookups only, and the flow suspends on it. *)
Lemma click_trace : forall E s, isAuthenticating s = false ->
  (phase (click_webauthn E s) = BIdle /\
   trace (click_webauthn E s) = trace s ++ [EvSupportProbe]) \/
  (exists a pre c, phase (click_webauthn E s) = BWaitCred a /\ Forall probe_or_lookup pre /\
     trace (click_webauthn E s) = trace s ++ pre ++ [EvPlatform c; EvSuspend SCred]).
Proof.
  intros E s Hb. unfold click_webauthn. rewrite Hb.
  destruct (webauthn_present E) eqn:Hw; simpl negb; cbv iota.
  2:{ left. destruct (fail_flow_facts main_not_supported_error
                        (log [EvSupportProbe] (set_busy true s))) as [_ [-> ->]]. auto. }
  right. cbn [store log set_busy].
  destruct (getStoredCredentialId (store s)) as [id|] eqn:Hg.
  - unfold authenticate_start. rewrite Hg. simpl negb. cbv iota.
    exists true, [EvSupportProbe; EvStoreLookup; EvSupportProbe; EvStoreLookup],
      (CallGet [id]).
    split; [reflexivity|split].
    + repeat (apply Forall_cons; [unfold probe_or_lookup; auto|]). apply Forall_nil.
    + cbn [trace log set_phase]. rewrite <- !app_assoc. reflexivity.
  - unfold register_start. simpl negb. cbv iota.
    exists false, [EvSupportProbe; EvStoreLookup; EvSupportProbe], CallCreate.
    split; [reflexivity|split].
    + repeat (apply Forall_cons; [unfold probe_or_lookup; auto|]). apply Forall_nil.
    + cbn [trace log set_phase]. rewrite <- !app_assoc. reflexivity.
Qed.

(** After the credential call settles the flow logs [EvCredSettled] first. *)
Lemma cred_trace : forall E out s a, phase s = BWaitCred a ->
  (phase (resolve_cred E out s) = BIdle /\
   exists rest, trace (resolve_cred E out s) = trace s ++ EvCredSettled :: rest) \/
  (phase (resolve_cred E out s) = BWaitCam /\
   trace (resolve_cred E out s) = trace s ++ [EvCredSettled; EvCamRequest; EvSuspend SCam]).
Proof.
  intros E out s a Hp. unfold resolve_cred. rewrite Hp.
  destruct (if a then _ else _) as [r st'].
  destruct r as [res|e].
  2:{ left. destruct (fail_flow_facts e (set_store st' (log [EvCredSettled] s))) as [_ [-> ->]].
      split; [reflexivity|]. exists []. reflexivity. }
  destruct (success res).
  - destruct (media_present E).
    + right. destruct a; cbn; rewrite <- app_assoc; split; reflexivity.
    + left. destruct a; cbn; split; try reflexivity; exists [EvSuspend SMicro];
        rewrite <- app_assoc; reflexivity.
  - left. split; [reflexivity|]. exists []. reflexivity.
Qed.

Lemma cam_trace : forall out s, phase s = BWaitCam ->
  exists rest, trace (resolve_cam out s) = trace s ++ rest.
Proof.
  intros out s Hp. unfold resolve_cam. rewrite Hp.
  destruct (camera_settle _ _) as [[stream|e] g]; cbn.
  - exists [EvCamSettled; EvTimerSet]. rewrite <- app_assoc. reflexivity.
  - exists [EvCamSettled]. reflexivity.
Qed.

Lemma flow_trace : forall E oc om s, isAuthenticating s = false ->
  trace (run_flow E oc om s) = trace s ++ [EvSupportProbe] \/
  exists pre c rest, Forall probe_or_lookup pre /\
    trace (run_flow E oc om s) =
      trace s ++ pre ++ EvPlatform c :: EvSuspend SCred :: EvCredSettled :: rest.
Proof.
  intros E oc om s Hb. unfold run_flow. rewrite Hb.
  destruct (click_trace E s Hb) as [[Hp Ht]|[a [pre [c [Hp [Hpre Ht]]]]]].
  - left. rewrite Hp. exact Ht.
  - right. rewrite Hp. exists pre, c.
    destruct (cred_trace E oc (click_webauthn E s) a Hp) as [[Hp2 [rest Ht2]]|[Hp2 Ht2]].
    + rewrite Hp2. exists rest. split; [exact Hpre|].
      rewrite Ht2, Ht, <- !app_assoc. reflexivity.
    + rewrite Hp2. destruct (cam_trace om _ Hp2) as [rest Ht3].
      exists (EvCamRequest :: EvSuspend SCam :: rest). split; [exact Hpre|].
      rewrite Ht3, Ht2, Ht, <- !app_assoc. reflexivity.
Qed.

(** C1: in every run of the gesture-triggered flow, the first suspension
    (if the flow suspends at all) is the wait on the credential call, issued
    right before it after only support probes and store lookups, with no
    camera request; every camera request of the flow comes after the
    credential call has settled. *)
Theorem credential_call_first_suspension :
  forall E oc om s,
    exists tr, trace (run_flow E oc om s) = trace s ++ tr /\
      match first_susp tr with
      | None => True
      | Some (pre, x) =>
          x = SCred /\ (exists c pre', pre = pre' ++ [EvPlatform c]) /\ ~ In EvCamRequest pre
      end /\
      (forall pre post, tr = pre ++ EvCamRequest :: post -> In EvCredSettled pre).
Proof.
  intros E oc om s.
  destruct (isAuthenticating s) eqn:Hb.
  { exists []. split; [unfold run_flow; rewrite Hb, app_nil_r; reflexivity|].
    split; [exact I|]. intros pre post Hc. destruct pre; discriminate. }
  destruct (flow_trace E oc om s Hb) as [Ht|[pre [c [rest [Hpre Ht]]]]].
  - exists [EvSupportProbe]. split; [exact Ht|]. split; [exact I|].
    intros pre post Hc. destruct pre as [|e [|e' pre]]; simpl in Hc; inversion Hc.
  - exists (pre ++ EvPlatform c :: EvSuspend SCred :: EvCredSettled :: rest).
    split; [exact Ht|].
    assert (Hn : ~ In EvCamRequest (pre ++ [EvPlatform c])).
    { rewrite in_app_iff. intros [Hi|Hi].
      - rewrite Forall_forall in Hpre. destruct (Hpre _ Hi) as [E1|E1]; discriminate.
      - destruct Hi as [Hi|[]]; discriminate. }
    split.
    + rewrite first_susp_issue by exact Hpre.
      split; [reflexivity|split; [exists c, pre; reflexivity|exact Hn]].
    + intros pre1 post Hc.
      destruct (app_split_notin (pre ++ [EvPlatform c; EvSuspend SCred; EvCredSettled]) rest
                  pre1 post EvCamRequest) as [mid Hm].
      * rewrite in_app_iff. intros [Hi|Hi].
        -- apply Hn, in_app_iff. left. exact Hi.
        -- destruct Hi as [Hi|[Hi|[Hi|[]]]]; discriminate.
      * rewrite <- Hc, <- app_assoc. reflexivity.
      * rewrite Hm, in_app_iff. left. rewrite in_app_iff. right. right. right. left. reflexivity.
Qed.

(** C2 (counterexample): after a registration succeeds and the secondary
    camera request is pending, the flag is still set although no credential
    call is in flight. *)
Lemma busy_during_secondary_camera :
  reachable (mkEnv true true) None
    (resolve_cred (mkEnv true true) (CredResolve (Some sample_raw_id))
       (click_webauthn (mkEnv true true) (init None))) /\
  isAuthenticating (resolve_cred (mkEnv true true) (CredResolve (Some sample_raw_id))
       (click_webauthn (mkEnv true true) (init None))) = true /\
  phase (resolve_cred (mkEnv true true) (CredResolve (Some sample_raw_id))
       (click_webauthn (mkEnv true true) (init None))) = BWaitCam.
Proof.
  split; [|split; vm_compute; reflexivity].
  eapply reach_step; [|apply step_cred].
  eapply reach_step; [|apply step_click].
  apply reach_init.
Qed.

(** C2 (amended): the flag is set exactly while a biometric flow is in
    progress, from the accepted trigger to the end of the flow, including the
    secondary camera request; every flow ends with it cleared, on success or
    failure; a trigger while it is set changes nothing; with the credential
    API present, two triggers before the first flow settles issue exactly one
    credential call. *)
Theorem busy_flag_spans_flow :
  forall E,
    (forall st0 s, reachable E st0 s -> (isAuthenticating s = true <-> phase s <> BIdle)) /\
    (forall s, isAuthenticating s = true -> click_webauthn E s = s) /\
    (forall oc om s, isAuthenticating s = false ->
       isAuthenticating (run_flow E oc om s) = false /\ phase (run_flow E oc om s) = BIdle) /\
    (forall s, isAuthenticating s = false -> webauthn_present E = true ->
       count_calls (trace (click_webauthn E (click_webauthn E s))) =
       S (count_calls (trace s))).
Proof.
  intros E. split; [|split; [|split]].
  - intros st0 s Hr. rewrite (reachable_busy_phase E st0 s Hr).
    destruct (phase s); simpl; split; congruence.
  - intros s Hb. unfold click_webauthn. rewrite Hb. reflexivity.
  - intros oc om s Hb. unfold run_flow. rewrite Hb.
    destruct (click_cases E s Hb) as [[H1 H2]|[a [H1 H2]]].
    + rewrite H2. auto.
    + rewrite H2.
      destruct (cred_cases E oc (click_webauthn E s) a H2 H1) as [[H3 H4]|[H3 H4]].
      * rewrite H4. auto.
      * rewrite H4. apply cam_cases. exact H4.
  - intros s Hb Hw.
    destruct (click_trace E s Hb) as [[Hp _]|[a [pre [c [Hp [Hpre Ht]]]]]].
    + exfalso. unfold click_webauthn in Hp. rewrite Hb, Hw in Hp. simpl in Hp.
      destruct (getStoredCredentialId (store s)) eqn:Hg.
      * unfold authenticate_start in Hp. simpl in Hp.
        rewrite Hg in Hp. discriminate.
      * discriminate.
    + destruct (click_cases E s Hb) as [[_ H2]|[a' [H1 _]]]; [congruence|].
      assert (click_webauthn E (click_webauthn E s) = click_webauthn E s) as ->
        by (unfold click_webauthn at 1; rewrite H1; reflexivity).
      rewrite Ht, !count_calls_app.
      assert (Hz : count_calls pre = 0%nat).
      { clear - Hpre. induction Hpre as [|e pre He _ IH]; [reflexivity|].
        destruct He as [-> | ->]; exact IH. }
      rewrite Hz. change (count_calls [EvPlatform c; EvSuspend SCred]) with 1%nat. lia.
Qed.

Lemma fail_flow_gw : forall e s,
  gw (fail_flow e s) = gw s \/ gw (fail_flow e s) = stopCamera (gw s).
Proof. intros e s. unfold fail_flow. destruct (srcObject _); [right|left]; reflexivity. Qed.

Ltac gw_fail :=
  match goal with
  | |- context [fail_flow ?e ?x] =>
      destruct (fail_flow_gw e x) as [Hf|Hf]; rewrite Hf; [left|right; left]; reflexivity
  end.

(** Every step leaves the camera module alone, stops the tracked stream, or
    tracks a fresh one. *)
Lemma step_gw : forall E s s', step E s s' ->
  gw s' = gw s \/ gw s' = stopCamera (gw s) \/
  gw s' = mkGw (Some (next_id (gw s))) (next_id (gw s) :: live (gw s)) (S (next_id (gw s))).
Proof.
  intros E s s' Hs. destruct Hs as [s|out s|out s|s|s|out s].
  - unfold click_webauthn. destruct (isAuthenticating s); [left; reflexivity|].
    destruct (webauthn_present E); simpl negb; cbv iota; [|gw_fail].
    destruct (getStoredCredentialId _).
    + destruct (authenticate_start _ _) as [evs [c|e]]; [left; reflexivity|gw_fail].
    + destruct (register_start _) as [evs [c|e]]; [left; reflexivity|gw_fail].
  - unfold resolve_cred. destruct (phase s) as [|a|]; [left; reflexivity| |left; reflexivity].
    destruct (if a then _ else _) as [r st']. destruct r as [res|e]; [|gw_fail].
    destruct (success res); [|left; reflexivity].
    destruct a; destruct (media_present E); left; reflexivity.
  - unfold resolve_cam. destruct (phase s); [left; reflexivity|left; reflexivity|].
    destruct out as [|e]; [right; right; reflexivity|left; reflexivity].
  - unfold fire_timer. destruct (timers s); [left|right; left]; reflexivity.
  - unfold click_toggle.
    destruct (toggleWaiting s); [left; reflexivity|].
    destruct (isCameraActive s); [right; left; reflexivity|].
    destruct (media_present E); left; reflexivity.
  - unfold resolve_toggle. destruct (toggleWaiting s); [|left; reflexivity].
    destruct out as [|e]; [right; right; reflexivity|left; reflexivity].
Qed.

Lemma stop_keeps_untracked : forall g x,
  In x (live g) -> currentStream g <> Some x -> x < next_id g ->
  In x (live (stopCamera g)) /\ currentStream (stopCamera g) <> Some x /\
  x < next_id (stopCamera g).
Proof.
  intros g x Hin Hc Hlt. unfold stopCamera.
  destruct (currentStream g) as [c|] eqn:Hcs.
  - simpl. split; [|split; [discriminate|exact Hlt]].
    apply filter_In. split; [exact Hin|].
    apply negb_true_iff, Nat.eqb_neq. intros ->. apply Hc. reflexivity.
  - split; [exact Hin|split; [rewrite Hcs; exact Hc|exact Hlt]].
Qed.

(** A live stream that is not tracked, and so has an old id, stays live and
    untracked in every later state: only the tracked stream is ever
    stopped, and new streams get fresh ids. *)
Lemma steps_keep_untracked : forall E s s' x, Inv.steps E s s' ->
  In x (live (gw s)) -> currentStream (gw s) <> Some x -> x < next_id (gw s) ->
  In x (live (gw s')) /\ currentStream (gw s') <> Some x /\ x < next_id (gw s').
Proof.
  intros E s s' x Hs. induction Hs as [s|s s1 s' H1 Hr IH]; intros Hin Hc Hlt.
  - auto.
  - destruct (step_gw E s s1 H1) as [G|[G|G]]; apply IH; rewrite G.
    + exact Hin.
    + exact Hc.
    + exact Hlt.
    + exact (proj1 (stop_keeps_untracked _ _ Hin Hc Hlt)).
    + exact (proj1 (proj2 (stop_keeps_untracked _ _ Hin Hc Hlt))).
    + exact (proj2 (proj2 (stop_keeps_untracked _ _ Hin Hc Hlt))).
    + right. exact Hin.
    + simpl. intros H. injection H as H. lia.
    + simpl. lia.
Qed.

(** C9 (code bug): with the camera turned on by its button, a biometric
    flow's secondary camera request makes its own stream the tracked one
    without stopping the button's stream: two acquired streams are live.
    After the auto-stop timeout and "Stop Camera" the button's stream is
    still live and untracked, and it stays live in every state the page
    can reach afterwards. *)
Theorem leaked_stream_stays_live :
  reachable env_full None toggle_then_register /\
  Camera.live (gw toggle_then_register) = [1; 0]%nat /\
  Camera.currentStream (gw toggle_then_register) = Some 1%nat /\
  reachable env_full None then_stop /\
  Camera.live (gw then_stop) = [0]%nat /\
  Camera.currentStream (gw then_stop) = None /\
  isCameraActive then_stop = false /\
  (forall s', Inv.steps env_full then_stop s' ->
     In 0%nat (Camera.live (gw s')) /\ Camera.currentStream (gw s') <> Some 0%nat).
Proof.
  assert (Hr : reachable env_full None toggle_then_register).
  { unfold toggle_then_register.
    eapply reach_step; [|apply step_cam].
    eapply reach_step; [|apply step_cred].
    eapply reach_step; [|apply step_click].
    eapply reach_step; [|apply step_toggle_cam].
    eapply reach_step; [|apply step_toggle].
    apply reach_init. }
  split; [exact Hr|split; [vm_compute; reflexivity|split; [vm_compute; reflexivity|]]].
  split.
  { unfold then_stop.
    eapply reach_step; [|apply step_toggle].
    eapply reach_step; [|apply step_timer].
    exact Hr. }
  split; [vm_compute; reflexivity|split; [vm_compute; reflexivity|split; [vm_compute; reflexivity|]]].
  intros s' Hs.
  destruct (steps_keep_untracked env_full then_stop s' 0%nat Hs) as [Hin [Hc _]].
  - vm_compute. left. reflexivity.
  - vm_compute. discriminate.
  - vm_compute. lia.
  - split; assumption.
Qed.

End MainFacts.

(** ** Browser detection and the page messages *)
Module BrowserFacts.
Import Browser Ui.
Local Open Scope string_scope.

Ltac split_ifs :=
  repeat match goal with |- context [if ?b then _ else _] => destruct b end.

Lemma prefix_app : forall p t, String.prefix p (p +s+ t) = true.
Proof.
  induction p as [|c p IH]; intros t; [destruct t; reflexivity|].
  simpl. destruct (ascii_dec c c) as [_|n]; [apply IH|contradiction].
Qed.

Lemma includes_app : forall a sub b, includes (a +s+ sub +s+ b) sub = true.
Proof.
  induction a as [|c a IH]; intros sub b.
  - change (includes (sub +s+ b) sub = true).
    pose proof (prefix_app sub b) as Hp. revert Hp. destruct (sub +s+ b); simpl; intros ->; reflexivity.
  - simpl. rewrite IH, orb_true_r. reflexivity.
Qed.

Lemma toLowerCase_app : forall a b, toLowerCase (a +s+ b) = toLowerCase a +s+ toLowerCase b.
Proof. induction a as [|c a IH]; intros b; simpl; [reflexivity|rewrite IH; reflexivity]. Qed.

(** The two detectors run the same chain of tests on the lowered user agent,
    so the camera help and the biometric help always name the same
    browser. *)
Theorem detectors_agree : forall ua,
  name (detectBrowser ua) = name (detectWebAuthnBrowser ua).
Proof. intros ua. unfold detectBrowser, detectWebAuthnBrowser. cbv zeta. split_ifs; reflexivity. Qed.

(** A user agent with an [Edg/] token, in any letter case and wherever it
    stands, is classified as Edge by both detectors, even though Edge user
    agents also mention Chrome and Safari. *)
Theorem edge_token_any_case : forall pre tok post,
  toLowerCase tok = "edg/" ->
  name (detectBrowser (pre +s+ tok +s+ post)) = "edge" /\
  name (detectWebAuthnBrowser (pre +s+ tok +s+ post)) = "edge".
Proof.
  intros pre tok post Ht. unfold detectBrowser, detectWebAuthnBrowser. cbv zeta.
  rewrite !toLowerCase_app, Ht, includes_app. split; reflexivity.
Qed.

Lemma edge_token_any_case_witness :
  toLowerCase "EDG/" = "edg/" /\
  name (detectBrowser ("Mozilla/5.0 Chrome/120.0 Safari/537.36 " +s+ "EDG/" +s+ "120.0")) = "edge" /\
  name (detectWebAuthnBrowser ("Mozilla/5.0 Chrome/120.0 Safari/537.36 " +s+ "EDG/" +s+ "120.0")) = "edge".
Proof. split; [reflexivity|apply edge_token_any_case; reflexivity]. Defined.

(** A user agent that contains [edg] but no [edg/] (Edge on Android sends
    [EdgA/], on iOS [EdgiOS/]) is neither Edge nor Chrome for the
    detectors: the Chrome test excludes every [edg], the Edge test needs
    the slash. It falls through to Firefox, Safari or unknown. *)
Theorem edg_without_slash : forall ua,
  includes (toLowerCase ua) "edg" = true -> includes (toLowerCase ua) "edg/" = false ->
  existsb (String.eqb (name (detectBrowser ua))) ["firefox"; "safari"; "unknown"] = true /\
  existsb (String.eqb (name (detectWebAuthnBrowser ua))) ["firefox"; "safari"; "unknown"] = true.
Proof.
  intros ua H1 H2. unfold detectBrowser, detectWebAuthnBrowser. cbv zeta.
  rewrite H2, H1. simpl negb. rewrite !andb_false_r.
  split; split_ifs; reflexivity.
Qed.

Lemma edg_without_slash_witness :
  let ua := "Mozilla/5.0 (Linux; Android 10; K) AppleWebKit/537.36 (KHTML, like Gecko) Chrome/120.0.0.0 Mobile Safari/537.36 EdgA/120.0.0.0" in
  includes (toLowerCase ua) "edg" = true /\ includes (toLowerCase ua) "edg/" = false /\
  existsb (String.eqb (name (detectBrowser ua))) ["firefox"; "safari"; "unknown"] = true /\
  existsb (String.eqb (name (detectWebAuthnBrowser ua))) ["firefox"; "safari"; "unknown"] = true.
Proof.
  cbv zeta. split; [vm_compute; reflexivity|]. split; [vm_compute; reflexivity|].
  apply edg_without_slash; vm_compute; reflexivity.
Defined.

(** The help heading names the detected browser with a capital initial
    ("edge" as "Edge", "chrome" as "Chrome", "firefox" as "Firefox",
    "safari" as "Safari"), and says "your browser" exactly when the
    browser is "unknown"; both detectors return one of these five names. *)
Theorem help_heading_names : forall ua,
  In (name (detectBrowser ua), display_name (detectBrowser ua))
    [("edge", "Edge"); ("chrome", "Chrome"); ("firefox", "Firefox");
     ("safari", "Safari"); ("unknown", "your browser")] /\
  In (name (detectWebAuthnBrowser ua), display_name (detectWebAuthnBrowser ua))
    [("edge", "Edge"); ("chrome", "Chrome"); ("firefox", "Firefox");
     ("safari", "Safari"); ("unknown", "your browser")].
Proof.
  intros ua. unfold detectBrowser, detectWebAuthnBrowser. cbv zeta.
  split; split_ifs; vm_compute; auto 6.
Qed.

(** After [hideMessages], [showError] makes the help block visible exactly
    for the kinds [permission-denied], [not-allowed] and [not-supported]. *)
Theorem help_shown_iff : forall ua e u,
  helpHidden (showError ua e (hideMessages u)) = false <->
  In (js_type e) [Some "permission-denied"; Some "not-allowed"; Some "not-supported"].
Proof.
  intros ua [[t|] n m o] u; unfold showError, type_is; simpl js_type; cbv iota.
  - destruct (String.eqb_spec t "permission-denied") as [->|H1].
    { split; [intros _; left; reflexivity|reflexivity]. }
    destruct (String.eqb_spec t "not-allowed") as [->|H2].
    { split; [intros _; right; left; reflexivity|reflexivity]. }
    destruct (String.eqb_spec t "not-supported") as [->|H3].
    { split; [intros _; right; right; left; reflexivity|reflexivity]. }
    simpl. split; [discriminate|]. intros [H|[H|[H|[]]]]; congruence.
  - simpl. split; [discriminate|]. intros [H|[H|[H|[]]]]; discriminate.
Qed.

(** [showError] never hides nor rewrites the help block for the other
    kinds: help shown for an earlier error stays on screen, unchanged, next
    to the new error. *)
Theorem stale_help_kept : forall ua e u,
  helpHidden u = false ->
  ~ In (js_type e) [Some "permission-denied"; Some "not-allowed"; Some "not-supported"] ->
  errorHidden (showError ua e u) = false /\ errorHtml (showError ua e u) = error_html e /\
  helpHidden (showError ua e u) = false /\ helpHtml (showError ua e u) = helpHtml u.
Proof.
  intros ua e u Hh Hn. unfold showError, type_is.
  destruct (js_type e) as [t|] eqn:Ht; [|simpl; auto].
  destruct (String.eqb_spec t "permission-denied") as [->|_].
  { exfalso. apply Hn. left. reflexivity. }
  destruct (String.eqb_spec t "not-allowed") as [->|_].
  { exfalso. apply Hn. right. left. reflexivity. }
  destruct (String.eqb_spec t "not-supported") as [->|_].
  { exfalso. apply Hn. right. right. left. reflexivity. }
  simpl. auto.
Qed.

Lemma stale_help_kept_witness :
  let u := mkUi true true EmptyString false (help_html "camera access" (detectBrowser "Firefox")) in
  let e := mk_error "in-use" "Camera is currently in use" None in
  helpHidden u = false /\
  ~ In (js_type e) [Some "permission-denied"; Some "not-allowed"; Some "not-supported"] /\
  errorHidden (showError "Firefox" e u) = false /\ errorHtml (showError "Firefox" e u) = error_html e /\
  helpHidden (showError "Firefox" e u) = false /\ helpHtml (showError "Firefox" e u) = helpHtml u.
Proof.
  cbv zeta. split; [reflexivity|].
  assert (Hn : ~ In (js_type (mk_error "in-use" "Camera is currently in use" None))
                 [Some "permission-denied"; Some "not-allowed"; Some "not-supported"]).
  { simpl. intros [H|[H|[H|[]]]]; discriminate. }
  split; [exact Hn|]. apply stale_help_kept; [reflexivity|exact Hn].
Defined.

End BrowserFacts.

(** ** The page: messages after failures, the stored credential, streams *)
Module PageFacts.
Import Camera WebAuthn Main Spec Inv Browser Ui Options.
Local Open Scope string_scope.

(** A camera start without [getUserMedia] shows the reclassified [unknown]
    error and no help at all: [startCamera] hid the help block first and
    [showError] has no help for [unknown]. *)
Theorem camera_absent_no_help : forall E s ua u,
  media_present E = false -> toggleWaiting s = false -> isCameraActive s = false ->
  exists e, lastError (click_toggle E s) = Some e /\
    js_message e = Some ("Unable to access camera: " +s+ Camera.not_supported_msg) /\
    showError ua e (hideMessages u) = mkUi true false (error_html e) true (helpHtml u).
Proof.
  intros E s ua u Hm Hw Ha. unfold click_toggle. rewrite Hw, Ha, Hm.
  eexists. split; [reflexivity|]. split; reflexivity.
Qed.

Lemma camera_absent_no_help_witness :
  exists e, lastError (click_toggle (mkEnv true false) (init None)) = Some e /\
    js_message e = Some ("Unable to access camera: " +s+ Camera.not_supported_msg) /\
    showError "Firefox" e (hideMessages (mkUi true true EmptyString true EmptyString)) =
      mkUi true false (error_html e) true EmptyString.
Proof. apply (camera_absent_no_help (mkEnv true false) (init None)); reflexivity. Defined.

(** A camera start the user denies ([NotAllowedError] or
    [PermissionDeniedError]) shows the camera help of [detectBrowser]. *)
Theorem camera_permission_help : forall s n m ua u,
  toggleWaiting s = true -> (n = "NotAllowedError" \/ n = "PermissionDeniedError") ->
  exists e, lastError (resolve_toggle (GumErr (platform_error n m)) s) = Some e /\
    js_type e = Some "permission-denied" /\
    helpHidden (showError ua e u) = false /\
    helpHtml (showError ua e u) = help_html "camera access" (detectBrowser ua).
Proof.
  intros s n m ua u Hw Hn. unfold resolve_toggle. rewrite Hw.
  destruct Hn as [-> | ->]; eexists; (split; [reflexivity|]); (split; [reflexivity|split; reflexivity]).
Qed.

Lemma camera_permission_help_witness :
  exists e, lastError (resolve_toggle (GumErr (platform_error "NotAllowedError" "denied"))
                        (click_toggle env_full (init None))) = Some e /\
    js_type e = Some "permission-denied" /\
    helpHidden (showError "Firefox" e (mkUi true true EmptyString true EmptyString)) = false /\
    helpHtml (showError "Firefox" e (mkUi true true EmptyString true EmptyString)) =
      help_html "camera access" (detectBrowser "Firefox").
Proof. apply camera_permission_help; [reflexivity|left; reflexivity]. Defined.

Lemma fail_flow_error : forall e s, lastError (fail_flow e s) = Some e.
Proof. intros e s. unfold fail_flow. destruct (srcObject _); reflexivity. Qed.

(** A biometric trigger without WebAuthn, while no video is shown, shows
    the [not-supported] error of [main.ts] with the biometric help of
    [detectWebAuthnBrowser], ends the flow, and leaves the camera as it
    was (the [catch] finds no video to stop). *)
Theorem webauthn_absent_help : forall E s ua u,
  webauthn_present E = false -> isAuthenticating s = false -> srcObject s = None ->
  lastError (click_webauthn E s) = Some main_not_supported_error /\
  isAuthenticating (click_webauthn E s) = false /\ phase (click_webauthn E s) = BIdle /\
  gw (click_webauthn E s) = gw s /\ srcObject (click_webauthn E s) = None /\
  helpHidden (showError ua main_not_supported_error u) = false /\
  helpHtml (showError ua main_not_supported_error u) =
    help_html "biometric authentication" (detectWebAuthnBrowser ua).
Proof.
  intros E s ua u Hw Hb Hx. unfold click_webauthn. rewrite Hb, Hw. simpl negb; cbv iota.
  unfold fail_flow. simpl. rewrite Hx. repeat split. exact Hx.
Qed.

Lemma webauthn_absent_help_witness :
  lastError (click_webauthn (mkEnv false true) (init None)) = Some main_not_supported_error /\
  isAuthenticating (click_webauthn (mkEnv false true) (init None)) = false /\
  phase (click_webauthn (mkEnv false true) (init None)) = BIdle /\
  gw (click_webauthn (mkEnv false true) (init None)) = gw (init None) /\
  srcObject (click_webauthn (mkEnv false true) (init None)) = None /\
  helpHidden (showError "Safari" main_not_supported_error (mkUi true true EmptyString true EmptyString)) = false /\
  helpHtml (showError "Safari" main_not_supported_error (mkUi true true EmptyString true EmptyString)) =
    help_html "biometric authentication" (detectWebAuthnBrowser "Safari").
Proof. apply webauthn_absent_help; reflexivity. Defined.

(** A ceremony the user cancels ([NotAllowedError] from [create] or
    [get]) while no video is shown ends the flow ([isAuthenticating] false,
    nothing pending) with a [not-allowed] error and the biometric help, and
    leaves the camera as it was. *)
Theorem cancelled_ceremony_help : forall E s a m ua u,
  phase s = BWaitCred a -> srcObject s = None ->
  exists e,
    let s' := resolve_cred E (CredReject (platform_error "NotAllowedError" m)) s in
    lastError s' = Some e /\ isAuthenticating s' = false /\ phase s' = BIdle /\
    gw s' = gw s /\ srcObject s' = None /\
    js_type e = Some "not-allowed" /\
    helpHidden (showError ua e u) = false /\
    helpHtml (showError ua e u) = help_html "biometric authentication" (detectWebAuthnBrowser ua).
Proof.
  intros E s a m ua u Hp Hx. unfold resolve_cred. rewrite Hp.
  destruct a; cbv zeta; simpl; unfold fail_flow; simpl; rewrite Hx;
    eexists; repeat split; exact Hx.
Qed.

Lemma cancelled_ceremony_help_witness :
  exists e,
    let s' := resolve_cred env_full (CredReject (platform_error "NotAllowedError" "cancel"))
                (click_webauthn env_full (init None)) in
    lastError s' = Some e /\ isAuthenticating s' = false /\ phase s' = BIdle /\
    gw s' = gw (click_webauthn env_full (init None)) /\ srcObject s' = None /\
    js_type e = Some "not-allowed" /\
    helpHidden (showError "Chrome" e (mkUi true true EmptyString true EmptyString)) = false /\
    helpHtml (showError "Chrome" e (mkUi true true EmptyString true EmptyString)) =
      help_html "biometric authentication" (detectWebAuthnBrowser "Chrome").
Proof. apply (cancelled_ceremony_help env_full _ false); reflexivity. Defined.

End PageFacts.

(** ** The stored credential across flows *)
Module StoreFacts.
Import Camera WebAuthn Main Spec Options.
Local Open Scope string_scope.
Local Open Scope list_scope.

Lemma fail_flow_store : forall e s, store (fail_flow e s) = store s.
Proof. intros e s. unfold fail_flow. destruct (srcObject _); reflexivity. Qed.

Lemma fail_flow_authed : forall e s, isAuthenticated (fail_flow e s) = false.
Proof. intros e s. unfold fail_flow. destruct (srcObject _); reflexivity. Qed.

Lemma click_store : forall E s, store (click_webauthn E s) = store s.
Proof.
  intros E s. unfold click_webauthn.
  destruct (isAuthenticating s); [reflexivity|].
  destruct (webauthn_present E); simpl negb; cbv iota; [|rewrite fail_flow_store; reflexivity].
  destruct (getStoredCredentialId _).
  - destruct (authenticate_start _ _) as [evs [c|e]]; [reflexivity|rewrite fail_flow_store; reflexivity].
  - destruct (register_start _) as [evs [c|e]]; [reflexivity|rewrite fail_flow_store; reflexivity].
Qed.

Lemma cam_store : forall om s, store (resolve_cam om s) = store s.
Proof.
  intros om s. unfold resolve_cam.
  destruct (phase s); [reflexivity|reflexivity|].
  destruct (camera_settle _ _) as [[x|e] g]; reflexivity.
Qed.

Lemma cam_authed : forall om s, isAuthenticated (resolve_cam om s) = isAuthenticated s.
Proof.
  intros om s. unfold resolve_cam.
  destruct (phase s); [reflexivity|reflexivity|].
  destruct (camera_settle _ _) as [[x|e] g]; reflexivity.
Qed.

(** Settling the credential call changes the store only when a [create]
    resolved with a credential. *)
Lemma cred_store : forall E oc s,
  store (resolve_cred E oc s) = store s \/
  (phase s = BWaitCred false /\ exists raw, oc = CredResolve (Some raw) /\
     store (resolve_cred E oc s) = storeCredentialId raw).
Proof.
  intros E oc s. unfold resolve_cred.
  destruct (phase s) as [|[|]|] eqn:Hp; [left; reflexivity| | |left; reflexivity].
  - left. cbv zeta. destruct (authenticate_finish oc) as [res|e]; [|rewrite fail_flow_store; reflexivity].
    destruct (success res); [|reflexivity]. destruct (media_present E); reflexivity.
  - destruct oc as [[raw|]|e]; cbv zeta; simpl register_finish; cbv iota.
    + destruct (storeCredentialId raw) as [b64|] eqn:Hs.
      * right. split; [reflexivity|]. exists raw. split; [reflexivity|].
        simpl success. destruct (media_present E); exact (eq_sym Hs).
      * left. rewrite fail_flow_store; reflexivity.
    + left. rewrite fail_flow_store; reflexivity.
    + left. rewrite fail_flow_store; reflexivity.
Qed.


Lemma click_register_phase : forall E s, isAuthenticating s = false ->
  phase (click_webauthn E s) = BWaitCred false ->
  webauthn_present E = true /\ getStoredCredentialId (store s) = None.
Proof.
  intros E s Hb. unfold click_webauthn. rewrite Hb.
  destruct (webauthn_present E); simpl negb; cbv iota.
  2:{ intros H. rewrite (proj1 (proj2 (MainFacts.fail_flow_facts _ _))) in H. discriminate. }
  simpl store. unfold authenticate_start. simpl negb; cbv iota.
  destruct (getStoredCredentialId (store s)) eqn:Hg.
  - simpl. discriminate.
  - intros _. split; reflexivity.
Qed.

(** The click on a stored credential: the support probe and the lookup of
    [main.ts], those of [authenticateUser], then [get] with that id. *)
Lemma click_authenticates : forall E s id, isAuthenticating s = false ->
  webauthn_present E = true -> getStoredCredentialId (store s) = Some id ->
  phase (click_webauthn E s) = BWaitCred true /\
  trace (click_webauthn E s) = trace s ++
    [EvSupportProbe; EvStoreLookup; EvSupportProbe; EvStoreLookup;
     EvPlatform (CallGet [id]); EvSuspend SCred].
Proof.
  intros E s id Hb Hw Hg. unfold click_webauthn. rewrite Hb, Hw. simpl negb; cbv iota.
  simpl store. unfold authenticate_start. simpl negb; cbv iota. rewrite Hg.
  split; [reflexivity|]. simpl. rewrite <- app_assoc. reflexivity.
Qed.

Lemma click_registers : forall E s, isAuthenticating s = false ->
  webauthn_present E = true -> getStoredCredentialId (store s) = None ->
  phase (click_webauthn E s) = BWaitCred false /\
  trace (click_webauthn E s) = trace s ++
    [EvSupportProbe; EvStoreLookup; EvSupportProbe; EvPlatform CallCreate; EvSuspend SCred].
Proof.
  intros E s Hb Hw Hg. unfold click_webauthn. rewrite Hb, Hw. simpl negb; cbv iota.
  simpl store. rewrite Hg.
  split; [reflexivity|]. simpl. rewrite <- app_assoc. reflexivity.
Qed.

Lemma click_suspends_camera : forall E s a,
  phase (click_webauthn E s) = BWaitCred a ->
  gw (click_webauthn E s) = gw s /\ srcObject (click_webauthn E s) = srcObject s.
Proof.
  intros E s a. unfold click_webauthn.
  destruct (isAuthenticating s); [split; reflexivity|].
  destruct (webauthn_present E); simpl negb; cbv iota;
    [|rewrite (proj1 (proj2 (MainFacts.fail_flow_facts _ _))); discriminate].
  destruct (getStoredCredentialId _).
  - destruct (authenticate_start _ _) as [evs [c|e]]; [split; reflexivity|].
    rewrite (proj1 (proj2 (MainFacts.fail_flow_facts _ _))); discriminate.
  - destruct (register_start _) as [evs [c|e]]; [split; reflexivity|].
    rewrite (proj1 (proj2 (MainFacts.fail_flow_facts _ _))); discriminate.
Qed.

Lemma atob_blank : forall ws, forallb Base64.is_ascii_ws (list_ascii_of_string ws) = true ->
  Base64.atob ws = Some [].
Proof.
  intros ws H. unfold Base64.atob.
  assert (Hf : forall l, forallb Base64.is_ascii_ws l = true ->
            filter (fun c => negb (Base64.is_ascii_ws c)) l = []).
  { induction l as [|c l IH]; [reflexivity|]. simpl. intros Hc.
    apply andb_prop in Hc as [Hc Hl]. rewrite Hc. simpl. apply IH, Hl. }
  rewrite (Hf _ H). reflexivity.
Qed.

(** A stored item made of ASCII whitespace only is not empty, so it is
    read, and [atob] turns it into an empty identifier: a trigger while no
    stream is shown or tracked calls [get] with an empty credential id
    instead of registering, and leaves the camera alone. *)
Theorem blank_item_empty_credential : forall E s ws,
  webauthn_present E = true -> isAuthenticating s = false -> store s = Some ws ->
  srcObject s = None -> currentStream (gw s) = None ->
  ws <> EmptyString -> forallb Base64.is_ascii_ws (list_ascii_of_string ws) = true ->
  getStoredCredentialId (store s) = Some [] /\
  phase (click_webauthn E s) = BWaitCred true /\
  gw (click_webauthn E s) = gw s /\ srcObject (click_webauthn E s) = None /\
  trace (click_webauthn E s) = trace s ++
    [EvSupportProbe; EvStoreLookup; EvSupportProbe; EvStoreLookup;
     EvPlatform (CallGet [[]]); EvSuspend SCred].
Proof.
  intros E s ws Hw Hb Hs Hx Hc Hne Hws.
  assert (Hg : getStoredCredentialId (store s) = Some []).
  { rewrite Hs. unfold getStoredCredentialId, base64ToUint8Array.
    destruct (String.eqb_spec ws EmptyString) as [E0|_]; [contradiction|].
    rewrite (atob_blank ws Hws). reflexivity. }
  destruct (click_authenticates E s [] Hb Hw Hg) as [Hp Ht].
  destruct (click_suspends_camera E s true Hp) as [Hgw Hsrc].
  split; [exact Hg|split; [exact Hp|split; [exact Hgw|split; [rewrite Hsrc; exact Hx|exact Ht]]]].
Qed.

Lemma blank_item_empty_credential_witness :
  let s := set_store (Some " ") (init None) in
  getStoredCredentialId (store s) = Some [] /\
  phase (click_webauthn env_full s) = BWaitCred true /\
  gw (click_webauthn env_full s) = gw s /\ srcObject (click_webauthn env_full s) = None /\
  trace (click_webauthn env_full s) = trace s ++
    [EvSupportProbe; EvStoreLookup; EvSupportProbe; EvStoreLookup;
     EvPlatform (CallGet [[]]); EvSuspend SCred].
Proof. apply (blank_item_empty_credential env_full _ " "); try reflexivity; discriminate. Defined.

(** A stored item [atob] rejects is read as no credential: a trigger while
    no stream is shown or tracked registers a new one, and leaves the
    camera alone. *)
Theorem malformed_item_registers : forall E s item,
  webauthn_present E = true -> isAuthenticating s = false -> store s = Some item ->
  srcObject s = None -> currentStream (gw s) = None ->
  Base64.atob item = None ->
  getStoredCredentialId (store s) = None /\
  phase (click_webauthn E s) = BWaitCred false /\
  gw (click_webauthn E s) = gw s /\ srcObject (click_webauthn E s) = None /\
  trace (click_webauthn E s) = trace s ++
    [EvSupportProbe; EvStoreLookup; EvSupportProbe; EvPlatform CallCreate; EvSuspend SCred].
Proof.
  intros E s item Hw Hb Hs Hx Hc Ha.
  assert (Hg : getStoredCredentialId (store s) = None).
  { rewrite Hs. unfold getStoredCredentialId, base64ToUint8Array. rewrite Ha.
    destruct (String.eqb item EmptyString); reflexivity. }
  destruct (click_registers E s Hb Hw Hg) as [Hp Ht].
  destruct (click_suspends_camera E s false Hp) as [Hgw Hsrc].
  split; [exact Hg|split; [exact Hp|split; [exact Hgw|split; [rewrite Hsrc; exact Hx|exact Ht]]]].
Qed.

Lemma malformed_item_registers_witness :
  Base64.atob "AQL+/" = None /\
  getStoredCredentialId (store (set_store (Some "AQL+/") (init None))) = None /\
  phase (click_webauthn env_full (set_store (Some "AQL+/") (init None))) = BWaitCred false /\
  gw (click_webauthn env_full (set_store (Some "AQL+/") (init None))) =
    gw (set_store (Some "AQL+/") (init None)) /\
  srcObject (click_webauthn env_full (set_store (Some "AQL+/") (init None))) = None /\
  trace (click_webauthn env_full (set_store (Some "AQL+/") (init None))) =
    trace (set_store (Some "AQL+/") (init None)) ++
    [EvSupportProbe; EvStoreLookup; EvSupportProbe; EvPlatform CallCreate; EvSuspend SCred].
Proof.
  split; [vm_compute; reflexivity|].
  apply (malformed_item_registers env_full _ "AQL+/"); reflexivity.
Defined.

(** Over one whole biometric flow started while no stream is shown or
    tracked, the store changes only when the flow registered ([create],
    because nothing readable was stored) and the platform returned a
    credential: the store then holds its base64. *)
Theorem store_changes_only_on_registration : forall E oc om s,
  srcObject s = None -> currentStream (gw s) = None ->
  store (run_flow E oc om s) = store s \/
  (exists raw, oc = CredResolve (Some raw) /\ webauthn_present E = true /\
     isAuthenticating s = false /\ getStoredCredentialId (store s) = None /\
     store (run_flow E oc om s) = storeCredentialId raw).
Proof.
  intros E oc om s _ _. unfold run_flow.
  destruct (isAuthenticating s) eqn:Hb; [left; reflexivity|].
  destruct (phase (click_webauthn E s)) as [|a|] eqn:Hp;
    [left; apply click_store| |left; apply click_store].
  destruct (cred_store E oc (click_webauthn E s)) as [H|[Hp1 [raw [Hoc Hst]]]].
  - left. destruct (phase (resolve_cred E oc (click_webauthn E s)));
      rewrite ?cam_store, H; apply click_store.
  - right. destruct (click_register_phase E s Hb Hp1) as [Hw Hg].
    exists raw. split; [exact Hoc|split; [exact Hw|split; [reflexivity|split; [exact Hg|]]]].
    destruct (phase (resolve_cred E oc (click_webauthn E s))); rewrite ?cam_store; exact Hst.
Qed.

Lemma store_changes_only_on_registration_witness :
  store (run_flow env_full (CredResolve (Some sample_raw_id)) GumOk (init None)) =
    store (init None) \/
  (exists raw, CredResolve (Some sample_raw_id) = CredResolve (Some raw) /\
     webauthn_present env_full = true /\
     isAuthenticating (init None) = false /\ getStoredCredentialId (store (init None)) = None /\
     store (run_flow env_full (CredResolve (Some sample_raw_id)) GumOk (init None)) =
       storeCredentialId raw).
Proof. apply store_changes_only_on_registration; reflexivity. Defined.

(** A registration flow started while no stream is shown or tracked,
    whose [create] returns a non-empty identifier, leaves the page idle,
    and the next trigger authenticates with [get] and exactly that
    identifier, whatever became of the camera request. *)
Theorem registration_then_authentication : forall E s raw om,
  webauthn_present E = true -> isAuthenticating s = false ->
  srcObject s = None -> currentStream (gw s) = None ->
  getStoredCredentialId (store s) = None -> raw <> [] ->
  isAuthenticating (run_flow E (CredResolve (Some raw)) om s) = false /\
  phase (click_webauthn E (run_flow E (CredResolve (Some raw)) om s)) = BWaitCred true /\
  trace (click_webauthn E (run_flow E (CredResolve (Some raw)) om s)) =
    trace (run_flow E (CredResolve (Some raw)) om s) ++
    [EvSupportProbe; EvStoreLookup; EvSupportProbe; EvStoreLookup;
     EvPlatform (CallGet [map byte_code raw]); EvSuspend SCred].
Proof.
  intros E s raw om Hw Hb _ _ Hg Hraw.
  destruct (WebAuthnFacts.stored_roundtrip raw Hraw) as [b64 [Hst [_ Hget]]].
  destruct (click_registers E s Hb Hw Hg) as [Hp1 _].
  assert (H2 : store (resolve_cred E (CredResolve (Some raw)) (click_webauthn E s)) = Some b64 /\
               (phase (resolve_cred E (CredResolve (Some raw)) (click_webauthn E s)) = BWaitCam \/
                (phase (resolve_cred E (CredResolve (Some raw)) (click_webauthn E s)) = BIdle /\
                 isAuthenticating (resolve_cred E (CredResolve (Some raw)) (click_webauthn E s)) = false))).
  { unfold resolve_cred. rewrite Hp1. cbv zeta. simpl register_finish. rewrite Hst.
    cbv iota. simpl success. destruct (media_present E); simpl; auto. }
  assert (Hfin : isAuthenticating (run_flow E (CredResolve (Some raw)) om s) = false /\
                 store (run_flow E (CredResolve (Some raw)) om s) = Some b64).
  { unfold run_flow. rewrite Hb, Hp1. cbv zeta.
    destruct H2 as [Hs2 [Hc|[Hi Hi2]]]; rewrite ?Hc, ?Hi.
    - split; [apply (MainFacts.cam_cases om _ Hc)|rewrite cam_store; exact Hs2].
    - split; assumption. }
  destruct Hfin as [Hb2 Hs2]. split; [exact Hb2|].
  apply click_authenticates; [exact Hb2|exact Hw|rewrite Hs2; exact Hget].
Qed.

Lemma registration_then_authentication_witness :
  isAuthenticating (run_flow env_full (CredResolve (Some sample_raw_id)) GumOk (init None)) = false /\
  phase (click_webauthn env_full (run_flow env_full (CredResolve (Some sample_raw_id)) GumOk (init None)))
    = BWaitCred true /\
  trace (click_webauthn env_full (run_flow env_full (CredResolve (Some sample_raw_id)) GumOk (init None))) =
    trace (run_flow env_full (CredResolve (Some sample_raw_id)) GumOk (init None)) ++
    [EvSupportProbe; EvStoreLookup; EvSupportProbe; EvStoreLookup;
     EvPlatform (CallGet [map byte_code sample_raw_id]); EvSuspend SCred].
Proof. apply registration_then_authentication; try reflexivity. discriminate. Defined.

Lemma store_total : forall raw, exists b64, storeCredentialId raw = Some b64.
Proof.
  intros raw.
  destruct (Base64Facts.btoa_atob (map byte_code raw) (WebAuthnFacts.byte_codes_in_range raw))
    as [b64 [Henc _]].
  exists b64. exact Henc.
Qed.

Lemma cred_fails : forall E oc t a,
  phase t = BWaitCred a -> (exists e, oc = CredReject e) \/ oc = CredResolve None ->
  isAuthenticated (resolve_cred E oc t) = false /\ phase (resolve_cred E oc t) = BIdle.
Proof.
  intros E oc t a Hp Ho. unfold resolve_cred. rewrite Hp.
  destruct Ho as [[e ->]| ->]; destruct a; cbv zeta; simpl register_finish; simpl authenticate_finish;
    cbv iota; (split; [apply fail_flow_authed|apply (MainFacts.fail_flow_facts _ _)]).
Qed.

(** [isAuthenticated] after one biometric flow: set by a successful
    [get], left as it was by a successful registration (which still
    reports success and opens the camera), cleared by any failed
    ceremony. *)
Theorem authenticated_after_flow : forall E oc om s,
  isAuthenticating s = false -> webauthn_present E = true ->
  (forall c id, getStoredCredentialId (store s) = Some id -> oc = CredResolve (Some c) ->
     isAuthenticated (run_flow E oc om s) = true) /\
  (forall raw, getStoredCredentialId (store s) = None -> oc = CredResolve (Some raw) ->
     isAuthenticated (run_flow E oc om s) = isAuthenticated s) /\
  ((exists e, oc = CredReject e) \/ oc = CredResolve None ->
     isAuthenticated (run_flow E oc om s) = false).
Proof.
  intros E oc om s Hb Hw. split; [|split].
  - intros c id Hg ->.
    destruct (click_authenticates E s id Hb Hw Hg) as [Hp _].
    unfold run_flow. rewrite Hb, Hp. cbv zeta.
    unfold resolve_cred at 1 2 3 4. rewrite Hp. cbv zeta. simpl authenticate_finish. cbv iota.
    simpl success. destruct (media_present E); cbn [phase set_phase finish_flow];
      [rewrite cam_authed|]; reflexivity.
  - intros raw Hg ->.
    destruct (click_registers E s Hb Hw Hg) as [Hp _].
    destruct (store_total raw) as [b64 Hst].
    assert (H2 : isAuthenticated (resolve_cred E (CredResolve (Some raw)) (click_webauthn E s))
                   = isAuthenticated s).
    { unfold resolve_cred. rewrite Hp. cbv zeta. simpl register_finish. rewrite Hst.
      cbv iota. simpl success. destruct (media_present E); simpl.
      - unfold click_webauthn. rewrite Hb, Hw. simpl. rewrite Hg. reflexivity.
      - unfold click_webauthn. rewrite Hb, Hw. simpl. rewrite Hg. reflexivity. }
    unfold run_flow. rewrite Hb, Hp. cbv zeta.
    destruct (phase (resolve_cred E (CredResolve (Some raw)) (click_webauthn E s)));
      rewrite ?cam_authed; exact H2.
  - intros Ho.
    destruct (getStoredCredentialId (store s)) as [id|] eqn:Hg.
    + destruct (click_authenticates E s id Hb Hw Hg) as [Hp _].
      destruct (cred_fails E oc (click_webauthn E s) true Hp Ho) as [Ha Hp2].
      unfold run_flow. rewrite Hb, Hp. cbv zeta. rewrite Hp2. exact Ha.
    + destruct (click_registers E s Hb Hw Hg) as [Hp _].
      destruct (cred_fails E oc (click_webauthn E s) false Hp Ho) as [Ha Hp2].
      unfold run_flow. rewrite Hb, Hp. cbv zeta. rewrite Hp2. exact Ha.
Qed.

Lemma authenticated_after_flow_witness :
  isAuthenticating (init None) = false /\ webauthn_present env_full = true /\
  ((forall c id, getStoredCredentialId (store (init None)) = Some id ->
     CredResolve (Some sample_raw_id) = CredResolve (Some c) ->
     isAuthenticated (run_flow env_full (CredResolve (Some sample_raw_id)) GumOk (init None)) = true) /\
   (forall raw, getStoredCredentialId (store (init None)) = None ->
     CredResolve (Some sample_raw_id) = CredResolve (Some raw) ->
     isAuthenticated (run_flow env_full (CredResolve (Some sample_raw_id)) GumOk (init None)) =
       isAuthenticated (init None)) /\
   ((exists e, CredResolve (Some sample_raw_id) = CredReject e) \/
      CredResolve (Some sample_raw_id) = CredResolve None ->
     isAuthenticated (run_flow env_full (CredResolve (Some sample_raw_id)) GumOk (init None)) = false)).
Proof. split; [reflexivity|split; [reflexivity|]]. apply authenticated_after_flow; reflexivity. Defined.

Lemma step_store : forall E s s', step E s s' ->
  store s' = store s \/ exists raw, store s' = storeCredentialId raw.
Proof.
  intros E s s' Hs. destruct Hs as [s|out s|out s|s|s|out s].
  - left. apply click_store.
  - destruct (cred_store E out s) as [H|[_ [raw [_ H]]]]; [left|right; exists raw]; exact H.
  - left. apply cam_store.
  - left. unfold fire_timer. destruct (timers s); reflexivity.
  - left. unfold click_toggle.
    destruct (toggleWaiting s); [reflexivity|].
    destruct (isCameraActive s); [reflexivity|].
    destruct (media_present E); reflexivity.
  - left. unfold resolve_toggle. destruct (toggleWaiting s); [|reflexivity]. simpl.
    destruct (camera_settle _ _) as [[x|e] g]; reflexivity.
Qed.

Lemma step_store_cases : forall E s s', step E s s' ->
  store s' = store s \/
  exists raw, phase s = BWaitCred false /\ s' = resolve_cred E (CredResolve (Some raw)) s /\
    store s' = storeCredentialId raw.
Proof.
  intros E s s' Hs. destruct (step_store E s s' Hs) as [H|_]; [left; exact H|].
  destruct Hs as [s|out s|out s|s|s|out s].
  - left. apply click_store.
  - destruct (cred_store E out s) as [H|[Hp [raw [Ho H]]]]; [left; exact H|].
    right. exists raw. subst out. split; [exact Hp|split; [reflexivity|exact H]].
  - left. apply cam_store.
  - left. unfold fire_timer. destruct (timers s); reflexivity.
  - left. unfold click_toggle.
    destruct (toggleWaiting s); [reflexivity|].
    destruct (isCameraActive s); [reflexivity|].
    destruct (media_present E); reflexivity.
  - left. unfold resolve_toggle. destruct (toggleWaiting s); [|reflexivity]. simpl.
    destruct (camera_settle _ _) as [[x|e] g]; reflexivity.
Qed.



(** Nothing in the page removes or rewrites the stored credential except a
    registration: in every reachable state the store is the initial one, or
    it was written by settling a pending [create] (a reachable state waiting
    for it) with a credential [raw], and holds the base64 of [raw]. *)
Theorem store_only_registrations : forall E st0 s, reachable E st0 s ->
  store s = st0 \/
  exists sp raw, reachable E st0 sp /\ phase sp = BWaitCred false /\
    store (resolve_cred E (CredResolve (Some raw)) sp) = store s /\
    store s = storeCredentialId raw.
Proof.
  intros E st0 s Hr. induction Hr as [|s s' Hr IH Hs]; [left; reflexivity|].
  destruct (step_store_cases E s s' Hs) as [H|[raw [Hp [-> H]]]].
  - rewrite H. exact IH.
  - right. exists s, raw. split; [exact Hr|split; [exact Hp|split; [reflexivity|exact H]]].
Qed.

Lemma store_only_registrations_witness :
  store toggle_then_register = None \/
  exists sp raw, reachable env_full None sp /\ phase sp = BWaitCred false /\
    store (resolve_cred env_full (CredResolve (Some raw)) sp) = store toggle_then_register /\
    store toggle_then_register = storeCredentialId raw.
Proof.
  apply (store_only_registrations env_full None).
  unfold toggle_then_register.
  eapply reach_step; [|apply step_cam].
  eapply reach_step; [|apply step_cred].
  eapply reach_step; [|apply step_click].
  eapply reach_step; [|apply step_toggle_cam].
  eapply reach_step; [|apply step_toggle].
  apply reach_init.
Defined.

End StoreFacts.

(** ** Streams across the camera button, the biometric flows and timers *)
Module StreamFacts.
Import Camera WebAuthn Main Spec Inv.

Lemma gw_ok_stop : forall g, gw_ok g -> gw_ok (stopCamera g) /\ currentStream (stopCamera g) = None.
Proof.
  intros g Hg. unfold stopCamera. destruct (currentStream g) as [x|] eqn:Hx.
  - split; [|reflexivity]. split; [intros y Hy; discriminate|].
    destruct Hg as [_ Hl]. apply Forall_forall. intros y Hy. apply filter_In in Hy as [Hy _].
    rewrite Forall_forall in Hl. apply Hl, Hy.
  - split; [exact Hg|exact Hx].
Qed.

Lemma gw_ok_settle : forall g, gw_ok g ->
  gw_ok (mkGw (Some (next_id g)) (next_id g :: live g) (S (next_id g))).
Proof.
  intros g [_ Hl]. split.
  - intros x Hx. injection Hx as <-. left. reflexivity.
  - simpl. constructor; [lia|]. eapply Forall_impl; [|exact Hl]. simpl. intros x Hx. lia.
Qed.

Lemma fail_ok : forall e s, page_ok s -> page_ok (fail_flow e s).
Proof.
  intros e s H. unfold fail_flow. simpl. destruct (srcObject s) eqn:Hx.
  - destruct H as [_ Hg]. destruct (gw_ok_stop _ Hg) as [Hg' Hn].
    split; [exact (eq_sym Hn)|exact Hg'].
  - exact H.
Qed.

Lemma stop_ok : forall s, page_ok s -> page_ok (handleStopCamera s).
Proof.
  intros s [_ Hg]. destruct (gw_ok_stop _ Hg) as [Hg' Hn].
  split; [exact (eq_sym Hn)|exact Hg'].
Qed.

Lemma step_ok : forall E s s', step E s s' -> page_ok s -> page_ok s'.
Proof.
  intros E s s' Hs H. destruct Hs as [s|out s|out s|s|s|out s].
  - unfold click_webauthn.
    destruct (isAuthenticating s); [exact H|].
    destruct (webauthn_present E); simpl negb; cbv iota; [|apply fail_ok; exact H].
    destruct (getStoredCredentialId _).
    + destruct (authenticate_start _ _) as [evs [c|e]]; [exact H|apply fail_ok; exact H].
    + destruct (register_start _) as [evs [c|e]]; [exact H|apply fail_ok; exact H].
  - unfold resolve_cred. destruct (phase s) as [|a|]; [exact H| |exact H].
    destruct (if a then _ else _) as [r st']. destruct r as [res|e]; [|apply fail_ok; exact H].
    destruct (success res); [|exact H]. destruct a; destruct (media_present E); exact H.
  - unfold resolve_cam. destruct (phase s); [exact H|exact H|].
    destruct out as [|e]; [|exact H].
    destruct H as [_ Hg]. split; [reflexivity|exact (gw_ok_settle _ Hg)].
  - unfold fire_timer. destruct (timers s); [exact H|].
    destruct H as [_ Hg]. destruct (gw_ok_stop _ Hg) as [Hg' Hn].
    split; [exact (eq_sym Hn)|exact Hg'].
  - unfold click_toggle.
    destruct (toggleWaiting s); [exact H|].
    destruct (isCameraActive s); [apply stop_ok; exact H|].
    destruct (media_present E); exact H.
  - unfold resolve_toggle. destruct (toggleWaiting s); [|exact H].
    destruct out as [|e]; [|exact H].
    destruct H as [_ Hg]. split; [reflexivity|exact (gw_ok_settle _ Hg)].
Qed.

Lemma reachable_page_ok : forall E st0 s, reachable E st0 s -> page_ok s.
Proof.
  intros E st0 s Hr. induction Hr as [|s s' Hr IH Hs].
  - split; [reflexivity|]. split; [discriminate|constructor].
  - exact (step_ok E s s' Hs IH).
Qed.

(** In every reachable state the video shows the stream the camera module
    tracks, that stream is live, and every live stream was handed out
    earlier (so a new stream never collides with a live one). *)
Theorem reachable_streams : forall E st0 s, reachable E st0 s ->
  srcObject s = currentStream (gw s) /\
  (forall x, currentStream (gw s) = Some x -> In x (live (gw s))) /\
  Forall (fun x => x < next_id (gw s)) (live (gw s)).
Proof. intros E st0 s Hr. destruct (reachable_page_ok E st0 s Hr) as [H1 [H2 H3]]. auto. Qed.

Lemma reach_toggle_then_register : reachable env_full None toggle_then_register.
Proof.
  unfold toggle_then_register.
  eapply reach_step; [|apply step_cam].
  eapply reach_step; [|apply step_cred].
  eapply reach_step; [|apply step_click].
  eapply reach_step; [|apply step_toggle_cam].
  eapply reach_step; [|apply step_toggle].
  apply reach_init.
Qed.

Lemma reachable_streams_witness :
  srcObject toggle_then_register = currentStream (gw toggle_then_register) /\
  (forall x, currentStream (gw toggle_then_register) = Some x -> In x (live (gw toggle_then_register))) /\
  Forall (fun x => x < next_id (gw toggle_then_register)) (live (gw toggle_then_register)).
Proof. apply (reachable_streams env_full None). exact reach_toggle_then_register. Defined.

Lemma filter_fresh : forall n l, Forall (fun x => x < n) l ->
  filter (fun x => negb (Nat.eqb x n)) l = l.
Proof.
  intros n l Hl. induction Hl as [|x l Hx Hl IH]; [reflexivity|].
  simpl. rewrite (proj2 (Nat.eqb_neq x n)) by lia. simpl. rewrite IH. reflexivity.
Qed.

(** Turning the camera on and then off again from a reachable state with the
    camera off stops exactly the stream it started: the live streams are
    those of before, and nothing is tracked or shown. *)
Theorem toggle_on_off_restores_live : forall E st0 s,
  reachable E st0 s -> media_present E = true ->
  toggleWaiting s = false -> isCameraActive s = false ->
  live (gw (click_toggle E (resolve_toggle GumOk (click_toggle E s)))) = live (gw s) /\
  currentStream (gw (click_toggle E (resolve_toggle GumOk (click_toggle E s)))) = None /\
  srcObject (click_toggle E (resolve_toggle GumOk (click_toggle E s))) = None /\
  isCameraActive (click_toggle E (resolve_toggle GumOk (click_toggle E s))) = false.
Proof.
  intros E st0 s Hr Hm Hw Ha.
  destruct (reachable_page_ok E st0 s Hr) as [_ [_ Hl]].
  assert (H1 : click_toggle E s = log [EvCamRequest; EvSuspend SCam] (set_toggle_waiting true s))
    by (unfold click_toggle; rewrite Hw, Ha, Hm; reflexivity).
  rewrite H1. unfold click_toggle, resolve_toggle, handleStopCamera, stopCamera. simpl.
  rewrite Nat.eqb_refl. simpl. rewrite filter_fresh by exact Hl.
  repeat split.
Qed.

Lemma toggle_on_off_restores_live_witness :
  live (gw (click_toggle env_full (resolve_toggle GumOk (click_toggle env_full (init None))))) =
    live (gw (init None)) /\
  currentStream (gw (click_toggle env_full (resolve_toggle GumOk (click_toggle env_full (init None))))) = None /\
  srcObject (click_toggle env_full (resolve_toggle GumOk (click_toggle env_full (init None)))) = None /\
  isCameraActive (click_toggle env_full (resolve_toggle GumOk (click_toggle env_full (init None)))) = false.
Proof. apply (toggle_on_off_restores_live env_full None); [apply reach_init|reflexivity..]. Defined.

(** A biometric trigger that fails at once (no WebAuthn) stops the shown
    stream, if any: it is no longer live, and nothing is shown or tracked.
    It leaves [isCameraActive] as it was: with the camera turned on by its
    button, the button still offers "Stop Camera" over a stopped video. *)
Theorem failed_trigger_stops_video : forall E st0 s,
  reachable E st0 s -> isAuthenticating s = false -> webauthn_present E = false ->
  srcObject (click_webauthn E s) = None /\ currentStream (gw (click_webauthn E s)) = None /\
  (forall x, srcObject s = Some x -> ~ In x (live (gw (click_webauthn E s)))) /\
  isCameraActive (click_webauthn E s) = isCameraActive s.
Proof.
  intros E st0 s Hr Hb Hw. destruct (reachable_page_ok E st0 s Hr) as [Hs Hg].
  unfold click_webauthn. rewrite Hb, Hw. simpl negb; cbv iota.
  unfold fail_flow. simpl. destruct (srcObject s) as [y|] eqn:Hx.
  - destruct (gw_ok_stop _ Hg) as [_ Hn]. split; [reflexivity|split; [exact Hn|split; [|reflexivity]]].
    intros x Hxy. injection Hxy as <-. unfold stopCamera. rewrite <- Hs. simpl.
    intros Hin. apply filter_In in Hin as [_ Hin].
    rewrite Nat.eqb_refl in Hin. discriminate.
  - split; [exact Hx|split; [exact (eq_sym Hs)|split; [intros x Hxy; discriminate|reflexivity]]].
Qed.

Lemma failed_trigger_stops_video_witness :
  let s := resolve_toggle GumOk (click_toggle (mkEnv false true) (init None)) in
  isCameraActive s = true /\
  srcObject (click_webauthn (mkEnv false true) s) = None /\
  currentStream (gw (click_webauthn (mkEnv false true) s)) = None /\
  (forall x, srcObject s = Some x -> ~ In x (live (gw (click_webauthn (mkEnv false true) s)))) /\
  isCameraActive (click_webauthn (mkEnv false true) s) = isCameraActive s.
Proof.
  cbv zeta. split; [reflexivity|].
  apply (failed_trigger_stops_video (mkEnv false true) None); [|reflexivity|reflexivity].
  eapply reach_step; [|apply step_toggle_cam].
  eapply reach_step; [|apply step_toggle].
  apply reach_init.
Defined.

(** [stopCamera] forgets the stream it stops: a second call does nothing. *)
Theorem stop_camera_idempotent : forall g,
  currentStream (stopCamera g) = None /\ stopCamera (stopCamera g) = stopCamera g.
Proof.
  intros g. unfold stopCamera. destruct (currentStream g) eqn:Hc; [split; reflexivity|].
  rewrite Hc. split; reflexivity.
Qed.

End StreamFacts.

(** ** Length of the stored base64 *)
Module Base64LengthFacts.
Import Base64 Spec.

Lemma length_string_of_list_ascii : forall l, String.length (string_of_list_ascii l) = length l.
Proof. induction l as [|c l IH]; simpl; [reflexivity|rewrite IH; reflexivity]. Qed.

Lemma encode_length : forall l,
  (length (sextets l) + pad_len (length l) = 4 * ((length l + 2) / 3))%nat.
Proof.
  induction l using Base64Facts.list_ind3; [reflexivity|reflexivity|reflexivity|].
  change (length (a :: b :: c :: l)) with (3 + length l)%nat.
  rewrite Base64Facts.pad_len_3. simpl length.
  replace (3 + length l + 2)%nat with (length l + 2 + 1 * 3)%nat by lia.
  rewrite Nat.div_add by lia. lia.
Qed.

(** [btoa] output has four characters for every started group of three
    input bytes. *)
Theorem btoa_length : forall codes b64, btoa codes = Some b64 ->
  String.length b64 = (4 * ((length codes + 2) / 3))%nat.
Proof.
  intros codes b64 H. unfold btoa in H.
  destruct (forallb _ codes); [|discriminate]. injection H as <-.
  rewrite length_string_of_list_ascii. unfold encode.
  rewrite length_app, length_map, repeat_length. apply encode_length.
Qed.

Lemma btoa_length_witness :
  btoa [1; 2; 254; 255]%Z = Some "AQL+/w=="%string /\
  String.length "AQL+/w=="%string = (4 * ((length [1; 2; 254; 255]%Z + 2) / 3))%nat.
Proof. split; [vm_compute; reflexivity|]. apply btoa_length. vm_compute. reflexivity. Defined.

End Base64LengthFacts.
